(** * Bolsa Atleta dashboard: connection guardian and query builder

    A shallow embedding of the two pieces of [app_streamlit.py] that carry
    logic: the filter-to-SQL translator [build_where_clause] and the cached
    connection handling of [get_valid_connection] / [fetch_query].

    Python values are modelled as follows:
    - [str] as [string], a list of [str] (the value of a multiselect) as
      [list string], in selection order;
    - the value of a date input as [option date] ([None] when unset);
    - the value of a number input as a binary64 [float];
    - a module-level variable as a field of a record that is passed
      explicitly;
    - [sqlite3], [pandas], [pathlib] and [streamlit] calls as operations on
      an abstract outside world, whose outcome the program cannot control. *)

From Stdlib Require Import String Ascii List Bool Arith Floats DecimalString.
From Stdlib Require Import Lia.
Import ListNotations.
Open Scope string_scope.

(** ** Python helpers *)

(** [sep.join(items)] *)
Definition join (sep : string) (items : list string) : string :=
  String.concat sep items.

(** Truth value of a Python list: empty lists are false. *)
Definition truthy {A : Type} (l : list A) : bool :=
  match l with
  | [] => false
  | _ :: _ => true
  end.

(** [items.append(x)], as a new list *)
Definition append {A : Type} (items : list A) (x : A) : list A :=
  (items ++ [x])%list.

(** ** Query builder *)

Module QueryBuilder.

(** [datetime.date] *)
Record date : Set := mkDate { year : nat; month : nat; day : nat }.

Definition decimal (n : nat) : string :=
  NilZero.string_of_uint (Nat.to_uint n).

Fixpoint zeros (n : nat) : string :=
  match n with
  | O => ""
  | S k => "0" ++ zeros k
  end.

(** ["%0<width>d" % n] *)
Definition zfill (width n : nat) : string :=
  let digits := decimal n in
  zeros (width - String.length digits) ++ digits.

(** [str(d)] for a [datetime.date]: the ISO form [YYYY-MM-DD]. *)
Definition date_str (d : date) : string :=
  zfill 4 (year d) ++ "-" ++ zfill 2 (month d) ++ "-" ++ zfill 2 (day d).

(** The module-level filter variables read by [build_where_clause]. *)
Record FilterState : Set := mkFilterState {
  filtro_categoria : list string;
  filtro_modalidade : list string;
  filtro_estado : list string;
  use_date_filter : bool;
  filtro_data_inicio : option date;
  filtro_data_fim : option date;
  use_value_filter : bool;
  filtro_valor_min : float;
  filtro_valor_max : float
}.

(** [x > 0] on Python floats *)
Definition gt_zero (x : float) : bool := (0 <? x)%float.

Section Builder.

(** [str(x)] for a Python float (its shortest round-trip [repr]); the
    builder only splices the text, so the formatter is left abstract. *)
Variable float_str : float -> string.

(** [f"{column} IN ('{"', '".join(values)}')"] *)
Definition in_condition (column : string) (values : list string) : string :=
  column ++ " IN ('" ++ join "', '" values ++ "')".

Definition date_ge (d : date) : string :=
  "p.data_pagamento >= '" ++ date_str d ++ "'".

Definition date_le (d : date) : string :=
  "p.data_pagamento <= '" ++ date_str d ++ "'".

Definition value_ge (v : float) : string :=
  "p.valor_pago >= " ++ float_str v.

Definition value_le (v : float) : string :=
  "p.valor_pago <= " ++ float_str v.

(** The five consecutive [if] blocks of [build_where_clause], each taking
    the [conditions] list built so far. *)

Definition add_categoria (fs : FilterState) (conditions : list string) : list string :=
  if truthy (filtro_categoria fs)
  then append conditions (in_condition "c.categoria" (filtro_categoria fs))
  else conditions.

Definition add_modalidade (fs : FilterState) (conditions : list string) : list string :=
  if truthy (filtro_modalidade fs)
  then append conditions (in_condition "m.modalidade" (filtro_modalidade fs))
  else conditions.

Definition add_estado (fs : FilterState) (conditions : list string) : list string :=
  if truthy (filtro_estado fs)
  then append conditions (in_condition "mu.uf" (filtro_estado fs))
  else conditions.

Definition add_data (fs : FilterState) (conditions : list string) : list string :=
  if use_date_filter fs
  then
    let conditions :=
      match filtro_data_inicio fs with
      | Some d => append conditions (date_ge d)
      | None => conditions
      end in
    match filtro_data_fim fs with
    | Some d => append conditions (date_le d)
    | None => conditions
    end
  else conditions.

Definition add_valor (fs : FilterState) (conditions : list string) : list string :=
  if use_value_filter fs
  then
    let conditions :=
      if gt_zero (filtro_valor_min fs)
      then append conditions (value_ge (filtro_valor_min fs))
      else conditions in
    if gt_zero (filtro_valor_max fs)
    then append conditions (value_le (filtro_valor_max fs))
    else conditions
  else conditions.

(** The value of [conditions] when the [return] statement is reached. *)
Definition conditions_of (fs : FilterState) : list string :=
  add_valor fs (add_data fs (add_estado fs (add_modalidade fs (add_categoria fs [])))).

(** [build_where_clause()]: [None] when no condition was collected. *)
Definition build_where_clause (fs : FilterState) : option string :=
  let conditions := conditions_of fs in
  if truthy conditions then Some (join " AND " conditions) else None.

End Builder.

(** The [repr] of the few floats that the examples below use. *)
Definition repr_sample (v : float) : string :=
  if (v =? 0)%float then "0.0"
  else if (v =? 100)%float then "100.0"
  else if (v =? 2500.5)%float then "2500.5"
  else "1.0".

End QueryBuilder.

(** ** Reading the text of an [IN] condition

    The builder hands SQLite a text; what that text selects is decided by
    SQLite's lexical rules, not by the builder.  [read_in_condition] reads
    a condition of the shape [column IN ('v1', 'v2', ...)] the way SQLite
    reads it: a string literal starts at a single quote and ends at the
    next single quote that is not doubled, and a doubled single quote
    inside a literal stands for one quote character. *)

Module SqlText.

Definition quote : ascii := "'"%char.
Definition space : ascii := " "%char.
Definition comma : ascii := ","%char.
Definition rparen : ascii := ")"%char.

(** Where the reader stands in the parenthesised list. *)
Inductive mode : Set :=
| BeforeLiteral                 (* a literal must start here *)
| InLiteral (value : string)    (* inside a literal, [value] read so far *)
| QuoteSeen (value : string)    (* a quote inside a literal was just read *)
| AfterLiteral                  (* a literal ended; [,] or [)] must follow *)
| Closed.                       (* the closing parenthesis was read *)

Definition snoc (s : string) (c : ascii) : string := s ++ String c "".

Fixpoint read_list (m : mode) (items : list string) (text : string)
  : option (list string) :=
  match text with
  | EmptyString =>
      match m with
      | Closed => Some items
      | _ => None
      end
  | String c rest =>
      match m with
      | BeforeLiteral =>
          if Ascii.eqb c space then read_list BeforeLiteral items rest
          else if Ascii.eqb c quote then read_list (InLiteral "") items rest
          else None
      | InLiteral value =>
          if Ascii.eqb c quote then read_list (QuoteSeen value) items rest
          else read_list (InLiteral (snoc value c)) items rest
      | QuoteSeen value =>
          if Ascii.eqb c quote then read_list (InLiteral (snoc value quote)) items rest
          else if Ascii.eqb c space then read_list AfterLiteral (append items value) rest
          else if Ascii.eqb c comma then read_list BeforeLiteral (append items value) rest
          else if Ascii.eqb c rparen then read_list Closed (append items value) rest
          else None
      | AfterLiteral =>
          if Ascii.eqb c space then read_list AfterLiteral items rest
          else if Ascii.eqb c comma then read_list BeforeLiteral items rest
          else if Ascii.eqb c rparen then read_list Closed items rest
          else None
      | Closed =>
          if Ascii.eqb c space then read_list Closed items rest else None
      end
  end.

(** [text] without its prefix [prefix], if it starts with it. *)
Fixpoint strip_prefix (prefix text : string) : option string :=
  match prefix with
  | EmptyString => Some text
  | String p prefix' =>
      match text with
      | EmptyString => None
      | String c text' =>
          if Ascii.eqb p c then strip_prefix prefix' text' else None
      end
  end.

(** The literals of [column IN (...)], or [None] when the text is not a
    well-formed condition of that shape (SQLite rejects the statement). *)
Definition read_in_condition (column text : string) : option (list string) :=
  match strip_prefix (column ++ " IN (") text with
  | Some body => read_list BeforeLiteral [] body
  | None => None
  end.

(** Does a row whose [column] holds [field] satisfy the condition [text]?
    A statement that SQLite rejects selects no row. *)
Definition in_matches (column text field : string) : bool :=
  match read_in_condition column text with
  | Some values => existsb (String.eqb field) values
  | None => false
  end.

(** A value without a single quote: it can be spliced between quotes
    unchanged. *)
Fixpoint quote_free (s : string) : bool :=
  match s with
  | EmptyString => true
  | String c rest => negb (Ascii.eqb c quote) && quote_free rest
  end.

Definition all_quote_free (values : list string) : Prop :=
  Forall (fun v => quote_free v = true) values.

End SqlText.

(** ** Connection guardian *)

Module Guardian.

(** The classes of the exceptions the library calls can raise: the
    [sqlite3] hierarchy, the [DatabaseError] of [pandas], and the rest. *)
Inductive exception : Set :=
| ProgrammingError
| OperationalError
| InterfaceError
| IntegrityError
| DataError
| InternalError
| NotSupportedError
| DatabaseError
| PandasDatabaseError
| OtherException.

(** [except (sqlite3.ProgrammingError, sqlite3.OperationalError,
    sqlite3.InterfaceError)]: the errors handled as a lost connection. *)
Definition connection_lost (e : exception) : bool :=
  match e with
  | ProgrammingError | OperationalError | InterfaceError => true
  | _ => false
  end.

(** A [sqlite3.Connection] object, by identity. *)
Definition Connection : Set := nat.

(** What the program asks of the outside, in the order it asks. *)
Inductive Event : Set :=
| Execute (c : Connection) (sql : string)      (* c.execute(sql) *)
| Close (c : Connection)                       (* c.close() *)
| Exists (path : string)                       (* Path(path).exists() *)
| Connect (path : string)                      (* sqlite3.connect(path, ...) *)
| ReadSql (query : string) (c : Connection)    (* pd.read_sql_query(query, c) *)
| StError (message : string).                  (* st.error(message) *)

(** The library calls, as transitions of an outside world that the
    program does not control: each returns the next world and either a
    value or the exception it raised. *)
Record Outside (World DataFrame : Type) : Type := mkOutside {
  lib_execute : Connection -> string -> World -> World * option exception;
  lib_close : Connection -> World -> World * option exception;
  lib_exists : string -> World -> World * bool;
  lib_connect : string -> World -> World * (Connection + exception);
  lib_read_sql_query : string -> Connection -> World -> World * (DataFrame + exception)
}.

Arguments lib_execute {World DataFrame}.
Arguments lib_close {World DataFrame}.
Arguments lib_exists {World DataFrame}.
Arguments lib_connect {World DataFrame}.
Arguments lib_read_sql_query {World DataFrame}.

(** How a call ends: with a value, with an exception, or with the script
    stopped by [st.stop()]. *)
Inductive Result (A : Type) : Type :=
| Return (a : A)
| Raise (e : exception)
| Stop.

Arguments Return {A}.
Arguments Raise {A}.
Arguments Stop {A}.

Section Program.

Context {World DataFrame : Type}.
Variable lib : Outside World DataFrame.

(** The outside world, the module-level [_conn_cache], and the calls made
    so far (kept for the statements only; the program never reads it). *)
Record State : Type := mkState {
  world : World;
  _conn_cache : option Connection;
  log : list Event
}.

Definition M (A : Type) : Type := State -> Result A * State.

Definition ret {A : Type} (a : A) : M A := fun s => (Return a, s).

Definition bind {A B : Type} (m : M A) (k : A -> M B) : M B :=
  fun s =>
    match m s with
    | (Return a, s') => k a s'
    | (Raise e, s') => (Raise e, s')
    | (Stop, s') => (Stop, s')
    end.

Notation "x <- m ;; k" := (bind m (fun x => k))
  (at level 61, m at next level, right associativity).
Notation "m ;; k" := (bind m (fun _ => k))
  (at level 61, right associativity).

(** [try: body / except classes as e: handler(e)] *)
Definition try_except {A : Type} (body : M A) (classes : exception -> bool)
    (handler : exception -> M A) : M A :=
  fun s =>
    match body s with
    | (Raise e, s') => if classes e then handler e s' else (Raise e, s')
    | other => other
    end.

(** [try: body / except: pass]: a bare [except] catches whatever ends the
    body early. *)
Definition try_pass (body : M unit) : M unit :=
  fun s =>
    match body s with
    | (Return _, s') => (Return tt, s')
    | (Raise _, s') => (Return tt, s')
    | (Stop, s') => (Return tt, s')
    end.

Definition record (s : State) (w : World) (e : Event) : State :=
  mkState w (_conn_cache s) (append (log s) e).

Definition get_cache : M (option Connection) :=
  fun s => (Return (_conn_cache s), s).

Definition set_cache (c : option Connection) : M unit :=
  fun s => (Return tt, mkState (world s) c (log s)).

Definition conn_execute (c : Connection) (sql : string) : M unit :=
  fun s =>
    let (w, r) := lib_execute lib c sql (world s) in
    match r with
    | None => (Return tt, record s w (Execute c sql))
    | Some e => (Raise e, record s w (Execute c sql))
    end.

Definition conn_close (c : Connection) : M unit :=
  fun s =>
    let (w, r) := lib_close lib c (world s) in
    match r with
    | None => (Return tt, record s w (Close c))
    | Some e => (Raise e, record s w (Close c))
    end.

Definition path_exists (path : string) : M bool :=
  fun s =>
    let (w, b) := lib_exists lib path (world s) in
    (Return b, record s w (Exists path)).

Definition sqlite3_connect (path : string) : M Connection :=
  fun s =>
    let (w, r) := lib_connect lib path (world s) in
    match r with
    | inl c => (Return c, record s w (Connect path))
    | inr e => (Raise e, record s w (Connect path))
    end.

Definition read_sql_query (query : string) (c : Connection) : M DataFrame :=
  fun s =>
    let (w, r) := lib_read_sql_query lib query c (world s) in
    match r with
    | inl df => (Return df, record s w (ReadSql query c))
    | inr e => (Raise e, record s w (ReadSql query c))
    end.

Definition st_error (message : string) : M unit :=
  fun s => (Return tt, record s (world s) (StError message)).

Definition st_stop {A : Type} : M A := fun s => (Stop, s).

Definition db_path : string := "bolsa_atleta.db".

(** The part of [get_valid_connection] under [# Cria nova conexão]:
    check that the store file is there, connect, cache the connection and
    set its busy timeout. *)
Definition open_connection : M Connection :=
  present <- path_exists db_path ;;
  (if present then ret tt
   else st_error ("Banco de dados não encontrado: " ++ db_path) ;; st_stop) ;;
  c <- sqlite3_connect db_path ;;
  set_cache (Some c) ;;
  conn_execute c "PRAGMA busy_timeout = 30000" ;;
  ret c.

(** [get_valid_connection()].  The first [match] is the block under
    [if _conn_cache is not None]: it yields the cached connection when the
    function returns from inside the block, and [None] when control falls
    through to the code that opens a connection. *)
Definition get_valid_connection : M Connection :=
  cached <- get_cache ;;
  valid <- match cached with
           | Some c =>
               try_except
                 (conn_execute c "SELECT 1" ;; ret (Some c))
                 connection_lost
                 (fun _ =>
                    try_pass (conn_close c) ;;
                    set_cache None ;;
                    ret None)
           | None => ret None
           end ;;
  match valid with
  | Some c => ret c
  | None => open_connection
  end.

(** [fetch_query(query, conn)] *)
Definition fetch_query (query : string) (conn : option Connection) : M DataFrame :=
  valid_conn <- get_valid_connection ;;
  try_except
    (read_sql_query query valid_conn)
    connection_lost
    (fun _ =>
       try_pass
         (cached <- get_cache ;;
          match cached with
          | Some c => conn_close c
          | None => ret tt
          end) ;;
       set_cache None ;;
       valid_conn <- get_valid_connection ;;
       read_sql_query query valid_conn).

(** [ensure_valid_connection(current_conn)] *)
Definition ensure_valid_connection (current_conn : option Connection)
  : M Connection :=
  match current_conn with
  | None => get_valid_connection
  | Some c =>
      try_except
        (conn_execute c "SELECT 1" ;; ret c)
        connection_lost
        (fun _ => get_valid_connection)
  end.

(** Counting the calls of one kind in a stretch of the log. *)
Definition is_close (e : Event) : bool :=
  match e with Close _ => true | _ => false end.

Definition is_read (e : Event) : bool :=
  match e with ReadSql _ _ => true | _ => false end.

Definition is_connect (e : Event) : bool :=
  match e with Connect _ => true | _ => false end.

Definition is_execute (e : Event) : bool :=
  match e with Execute _ _ => true | _ => false end.

Definition count (p : Event -> bool) (l : list Event) : nat :=
  List.length (filter p l).

(** The calls made between two states of one run. *)
Definition since (before after : State) : list Event :=
  skipn (List.length (log before)) (log after).

(** The state once the connection [c] has been closed, whatever the close
    did, and the cache has been cleared. *)
Definition invalidated (s : State) (c : Connection) : State :=
  mkState (fst (lib_close lib c (world s))) None (append (log s) (Close c)).

(** The statement of the liveness probe and the statement run on a new
    connection. *)
Definition probe : string := "SELECT 1".
Definition pragma : string := "PRAGMA busy_timeout = 30000".

(** The message shown when the store file is missing. *)
Definition not_found_message : string :=
  "Banco de dados não encontrado: " ++ db_path.

End Program.

Arguments State : clear implicits.
Arguments mkState {World}.
Arguments world {World}.
Arguments _conn_cache {World}.
Arguments log {World}.

End Guardian.

(** ** A small simulated outside, for running the program

    The store is a file that is present or not; a connection works while
    it is among the live ones; a query on a live connection finds the
    database locked for the next [locked_for] attempts (SQLite then raises
    [OperationalError]) and afterwards returns a table, which here is just
    the text of the query.  The probe [SELECT 1] touches no table, so a
    lock does not make it fail. *)

Module Sim.

Import Guardian.

Record World : Set := mkWorld {
  store_present : bool;
  live : list Connection;
  next_id : Connection;
  locked_for : nat
}.

Definition DataFrame : Set := string.

Definition is_live (c : Connection) (w : World) : bool :=
  existsb (Nat.eqb c) (live w).

Definition execute (c : Connection) (sql : string) (w : World)
  : World * option exception :=
  if is_live c w then (w, None) else (w, Some ProgrammingError).

Definition close (c : Connection) (w : World) : World * option exception :=
  (mkWorld (store_present w)
           (filter (fun c' => negb (Nat.eqb c c')) (live w))
           (next_id w) (locked_for w),
   None).

Definition file_exists (path : string) (w : World) : World * bool :=
  (w, store_present w).

Definition connect (path : string) (w : World)
  : World * (Connection + exception) :=
  (mkWorld (store_present w) (next_id w :: live w) (S (next_id w)) (locked_for w),
   inl (next_id w)).

Definition read (query : string) (c : Connection) (w : World)
  : World * (DataFrame + exception) :=
  if is_live c w then
    match locked_for w with
    | O => (w, inl query)
    | S n => (mkWorld (store_present w) (live w) (next_id w) n, inr OperationalError)
    end
  else (w, inr ProgrammingError).

Definition outside : Outside World DataFrame :=
  mkOutside World DataFrame execute close file_exists connect read.

(** The same outside, except that every query is rejected with the error
    [e] (for instance [PandasDatabaseError] for a malformed statement). *)
Definition rejecting (e : exception) : Outside World DataFrame :=
  mkOutside World DataFrame execute close file_exists connect
            (fun _ _ w => (w, inr e)).

(** A session whose cached connection [0] is live. *)
Definition session (present : bool) (locked : nat) : State World :=
  mkState (mkWorld present [0] 1 locked) (Some 0) [].

(** The same session once the probe has succeeded. *)
Definition validated (present : bool) (locked : nat) : State World :=
  mkState (mkWorld present [0] 1 locked) (Some 0) [Execute 0 "SELECT 1"].

(** A session whose cached connection [0] was torn down by the host. *)
Definition stale_session (present : bool) : State World :=
  mkState (mkWorld present [] 1 0) (Some 0) [].

(** A session that has not opened a connection yet. *)
Definition fresh_session (present : bool) : State World :=
  mkState (mkWorld present [] 0 0) None [].

End Sim.

(** ** The specification's view of the query builder

    These definitions follow the table of the specification (one
    contribution per filter field), not the code; the theorems below
    compare them with [QueryBuilder.build_where_clause]. *)

Module BuilderSpec.

Import QueryBuilder.

(** A condition a filter field can contribute. *)
Inductive field_condition : Set :=
| MemberOf (column : string) (values : list string)
| DateFrom (start : date)
| DateUntil (finish : date)
| ValueAtLeast (minimum : float)
| ValueAtMost (maximum : float).

(** Contribution of a set-valued field: a membership test when the set is
    non-empty. *)
Definition membership (column : string) (values : list string)
  : list field_condition :=
  match values with
  | [] => []
  | _ :: _ => [MemberOf column values]
  end.

(** Contribution of an optional bound. *)
Definition bound {A : Type} (mk : A -> field_condition) (b : option A)
  : list field_condition :=
  match b with
  | Some x => [mk x]
  | None => []
  end.

(** [v == 0]: the sentinel of an unset value bound. *)
Definition is_zero (v : float) : bool := (v =? 0)%float.

(** A value bound is set when it is greater than zero. *)
Definition positive (v : float) : option float :=
  if gt_zero v then Some v else None.

Definition date_range (fs : FilterState) : list field_condition :=
  if use_date_filter fs
  then (bound DateFrom (filtro_data_inicio fs)
        ++ bound DateUntil (filtro_data_fim fs))%list
  else [].

Definition value_range (fs : FilterState) : list field_condition :=
  if use_value_filter fs
  then (bound ValueAtLeast (positive (filtro_valor_min fs))
        ++ bound ValueAtMost (positive (filtro_valor_max fs)))%list
  else [].

(** The conditions of the enabled fields. *)
Definition spec_conditions (fs : FilterState) : list field_condition :=
  (membership "c.categoria" (filtro_categoria fs)
   ++ membership "m.modalidade" (filtro_modalidade fs)
   ++ membership "mu.uf" (filtro_estado fs)
   ++ date_range fs
   ++ value_range fs)%list.

Section Rendering.

Variable float_str : float -> string.

(** The SQL text of one condition. *)
Definition render (c : field_condition) : string :=
  match c with
  | MemberOf column values => in_condition column values
  | DateFrom d => date_ge d
  | DateUntil d => date_le d
  | ValueAtLeast v => value_ge float_str v
  | ValueAtMost v => value_le float_str v
  end.



(** The seven places a condition can take, in the order of the source
    text; a place is empty when its field is not enabled. *)
Definition slots (fs : FilterState) : list (option string) :=
  [ if truthy (filtro_categoria fs)
    then Some (in_condition "c.categoria" (filtro_categoria fs)) else None;
    if truthy (filtro_modalidade fs)
    then Some (in_condition "m.modalidade" (filtro_modalidade fs)) else None;
    if truthy (filtro_estado fs)
    then Some (in_condition "mu.uf" (filtro_estado fs)) else None;
    if use_date_filter fs
    then option_map date_ge (filtro_data_inicio fs) else None;
    if use_date_filter fs
    then option_map date_le (filtro_data_fim fs) else None;
    if use_value_filter fs && gt_zero (filtro_valor_min fs)
    then Some (value_ge float_str (filtro_valor_min fs)) else None;
    if use_value_filter fs && gt_zero (filtro_valor_max fs)
    then Some (value_le float_str (filtro_valor_max fs)) else None ].

(** The filled places, in order. *)
Fixpoint filled (places : list (option string)) : list string :=
  match places with
  | [] => []
  | Some c :: rest => c :: filled rest
  | None :: rest => filled rest
  end.

End Rendering.

(** The same filter state with other stored date bounds. *)
Definition with_dates (fs : FilterState) (start finish : option date)
  : FilterState :=
  mkFilterState (filtro_categoria fs) (filtro_modalidade fs) (filtro_estado fs)
                (use_date_filter fs) start finish
                (use_value_filter fs) (filtro_valor_min fs) (filtro_valor_max fs).

(** The conditions collected before the date block is reached. *)
Definition before_dates (fs : FilterState) : list string :=
  add_estado fs (add_modalidade fs (add_categoria fs [])).

(** Is the text a test of membership in exactly [values]? *)
Definition membership_test (column : string) (values : list string)
    (text : string) : Prop :=
  forall field : string,
    SqlText.in_matches column text field = true <-> In field values.

End BuilderSpec.

(** ** Filter states used in the examples *)

Module Samples.

Import QueryBuilder.

Definition first_day : date := mkDate 2020 1 2.
Definition last_day : date := mkDate 2024 12 31.

(** Nothing selected and both toggles off, with bounds still stored. *)
Definition all_disabled : FilterState :=
  mkFilterState [] [] [] false (Some first_day) (Some last_day) false 100 2500.5.

(** Every field enabled. *)
Definition all_enabled : FilterState :=
  mkFilterState ["Atleta Pódio"] ["Judô"] ["SP"; "RJ"]
                true (Some first_day) (Some last_day) true 100 2500.5.

(** The date toggle on with a start bound only. *)
Definition only_start : FilterState :=
  mkFilterState ["Atleta Pódio"] [] [] true (Some first_day) None false 0 0.

(** The date toggle off. *)
Definition dates_off : FilterState :=
  mkFilterState ["Atleta Pódio"] [] [] false None None false 0 0.

(** The value toggle on with a zero minimum, and with a zero maximum. *)
Definition no_minimum : FilterState :=
  mkFilterState [] [] [] false None None true 0 100.

Definition no_maximum : FilterState :=
  mkFilterState [] [] [] false None None true 2500.5 0.

(** Selections without a quote character. *)
Definition plain_selection : FilterState :=
  mkFilterState ["Atleta Pódio"; "Atleta de Base"] ["Judô"] ["SP"]
                false None None false 0 0.

(** A selected category that contains quote characters. *)
Definition quoted_selection : FilterState :=
  mkFilterState ["a', 'b"] [] [] false None None false 0 0.

End Samples.

(** ** The statements of the overview page *)

Module Overview.

Import QueryBuilder.

(** The newline character of the triple-quoted texts. *)
Definition nl : string := String (ascii_of_nat 10) "".

(** [join_clause], the joins shared by the filtered statements. *)
Definition join_clause : string :=
  nl ++ "    FROM pagamento p"
  ++ nl ++ "    JOIN categoria c ON p.id_categoria = c.id_categoria"
  ++ nl ++ "    JOIN modalidade m ON p.id_modalidade = m.id_modalidade"
  ++ nl ++ "    JOIN atleta a ON p.cpf = a.cpf"
  ++ nl ++ "    JOIN municipio mu ON a.id_municipio = mu.id_municipio"
  ++ nl ++ "    ".

(** Truth value of [where_clause] in [if where_clause:]: [None] and the
    empty text are false. *)
Definition truthy_text (where_clause : option string) : bool :=
  match where_clause with
  | None => false
  | Some EmptyString => false
  | Some (String _ _) => true
  end.

(** [str(where_clause)] inside an f-string. *)
Definition text_of (where_clause : option string) : string :=
  match where_clause with
  | None => "None"
  | Some text => text
  end.

(** The columns selected by [query_stats], up to the [FROM]. *)
Definition stats_columns : string :=
  nl ++ "        SELECT "
  ++ nl ++ "            COUNT(*) as total_pagamentos,"
  ++ nl ++ "            COUNT(DISTINCT p.cpf) as total_atletas,"
  ++ nl ++ "            SUM(p.valor_pago) as valor_total,"
  ++ nl ++ "            AVG(p.valor_pago) as valor_medio"
  ++ nl ++ "        ".

Section Statements.

Variable float_str : float -> string.

(** [base_query] as the overview page computes it. *)
Definition base_query (fs : FilterState) : string :=
  let where_clause := build_where_clause float_str fs in
  if truthy_text where_clause
  then "SELECT * " ++ join_clause ++ " WHERE " ++ text_of where_clause
  else "SELECT * " ++ join_clause.

(** [query_stats] as the overview page computes it. *)
Definition query_stats (fs : FilterState) : string :=
  let where_clause := build_where_clause float_str fs in
  if truthy_text where_clause
  then stats_columns ++ join_clause
       ++ nl ++ "        WHERE " ++ text_of where_clause
       ++ nl ++ "        "
  else stats_columns ++ "FROM pagamento p" ++ nl ++ "        ".

End Statements.

End Overview.

(** ** Counting quote characters

    Used to say when the text of an [IN] condition is read back as the
    values that were spliced into it. *)

Module QuoteCount.

Import SqlText.

(** The number of single quotes in a text. *)
Fixpoint quotes (s : string) : nat :=
  match s with
  | EmptyString => 0
  | String c rest => (if Ascii.eqb c quote then 1 else 0) + quotes rest
  end.

Fixpoint quotes_in (values : list string) : nat :=
  match values with
  | [] => 0
  | v :: rest => quotes v + quotes_in rest
  end.

(** The number of quotes the reader has consumed when it stands in mode
    [m] with [items] read: two delimiters for each item and two for each
    quote character inside an item. *)
Definition consumed (m : mode) (items : list string) : nat :=
  2 * List.length items + 2 * quotes_in items
  + match m with
    | InLiteral value => 1 + 2 * quotes value
    | QuoteSeen value => 2 + 2 * quotes value
    | _ => 0
    end.

(** Two selections with the same members. *)
Definition same_members (values values' : list string) : Prop :=
  forall v : string, In v values <-> In v values'.

End QuoteCount.

(** ** A simulated outside on which the busy-timeout statement fails *)

Module Faults.

Import Guardian.

Definition execute (c : Connection) (sql : string) (w : Sim.World)
  : Sim.World * option exception :=
  if String.eqb sql pragma then (w, Some OperationalError)
  else Sim.execute c sql w.

Definition outside : Outside Sim.World Sim.DataFrame :=
  mkOutside Sim.World Sim.DataFrame
            execute Sim.close Sim.file_exists Sim.connect Sim.read.

(** A session that holds the live connection [0] in a variable while the
    cache holds the live connection [1]. *)
Definition two_connections : State Sim.World :=
  mkState (Sim.mkWorld true [0; 1] 2 0) (Some 1) [].

(** A session whose variable holds the dead connection [0] while the
    cache holds the live connection [1]. *)
Definition dead_variable : State Sim.World :=
  mkState (Sim.mkWorld true [1] 2 0) (Some 1) [].

End Faults.

(** * Properties of the query builder *)

Module BuilderProps.

Import QueryBuilder BuilderSpec.

Section WithFormatter.

Variable float_str : float -> string.

Local Abbreviation conditions_of := (conditions_of float_str).
Local Abbreviation build_where_clause := (build_where_clause float_str).
Local Abbreviation add_valor := (add_valor float_str).
Local Abbreviation render := (render float_str).

(** Each block of the source extends [conditions] by the rendering of its
    field's contribution. *)

Lemma add_categoria_spec fs conditions :
  add_categoria fs conditions =
  (conditions ++ map render (membership "c.categoria" (filtro_categoria fs)))%list.
Proof.
  unfold add_categoria, membership, append.
  destruct (filtro_categoria fs); simpl; [now rewrite app_nil_r | reflexivity].
Qed.

Lemma add_modalidade_spec fs conditions :
  add_modalidade fs conditions =
  (conditions ++ map render (membership "m.modalidade" (filtro_modalidade fs)))%list.
Proof.
  unfold add_modalidade, membership, append.
  destruct (filtro_modalidade fs); simpl; [now rewrite app_nil_r | reflexivity].
Qed.

Lemma add_estado_spec fs conditions :
  add_estado fs conditions =
  (conditions ++ map render (membership "mu.uf" (filtro_estado fs)))%list.
Proof.
  unfold add_estado, membership, append.
  destruct (filtro_estado fs); simpl; [now rewrite app_nil_r | reflexivity].
Qed.

Lemma add_data_spec fs conditions :
  add_data fs conditions = (conditions ++ map render (date_range fs))%list.
Proof.
  unfold add_data, date_range, append.
  destruct (use_date_filter fs); [| now rewrite app_nil_r].
  destruct (filtro_data_inicio fs), (filtro_data_fim fs); simpl;
    rewrite <- ?app_assoc, ?app_nil_r; reflexivity.
Qed.

Lemma add_valor_spec fs conditions :
  add_valor fs conditions = (conditions ++ map render (value_range fs))%list.
Proof.
  unfold QueryBuilder.add_valor, value_range, positive, append.
  destruct (use_value_filter fs); [| now rewrite app_nil_r].
  destruct (gt_zero (filtro_valor_min fs)), (gt_zero (filtro_valor_max fs)); simpl;
    rewrite <- ?app_assoc, ?app_nil_r; reflexivity.
Qed.

Lemma conditions_of_spec fs :
  conditions_of fs = map render (spec_conditions fs).
Proof.
  unfold QueryBuilder.conditions_of, spec_conditions.
  rewrite add_valor_spec, add_data_spec, add_estado_spec,
    add_modalidade_spec, add_categoria_spec.
  rewrite !map_app, <- !app_assoc. reflexivity.
Qed.

Lemma truthy_map {A B : Type} (f : A -> B) (l : list A) :
  truthy (map f l) = truthy l.
Proof. destruct l; reflexivity. Qed.

(** C4: a filter state whose three sets are empty and whose two toggles
    are off yields no predicate at all, whatever date and value bounds
    are stored. *)
Theorem empty_filter_state_gives_no_predicate (fs : FilterState) :
  filtro_categoria fs = [] ->
  filtro_modalidade fs = [] ->
  filtro_estado fs = [] ->
  use_date_filter fs = false ->
  use_value_filter fs = false ->
  build_where_clause fs = None.
Proof.
  intros Hc Hm He Hd Hv.
  unfold QueryBuilder.build_where_clause, QueryBuilder.conditions_of,
    QueryBuilder.add_valor, add_data, add_estado, add_modalidade, add_categoria.
  rewrite Hc, Hm, He, Hd, Hv. reflexivity.
Qed.



Lemma before_dates_with_dates fs start finish :
  before_dates (with_dates fs start finish) = before_dates fs.
Proof. reflexivity. Qed.

Lemma add_data_off fs conditions :
  use_date_filter fs = false -> add_data fs conditions = conditions.
Proof. unfold add_data. now intros ->. Qed.

(** C6: with the date toggle on and only a start bound stored, the date
    block adds the lower bound on the payment date and nothing else; with
    the toggle off it adds nothing, and the predicate is the same
    whatever start and end bounds are stored. *)
Theorem date_toggle_controls_date_bounds (fs : FilterState) :
  (forall d : date,
      use_date_filter fs = true ->
      filtro_data_inicio fs = Some d ->
      filtro_data_fim fs = None ->
      conditions_of fs = add_valor fs (append (before_dates fs) (date_ge d)))
  /\
  (use_date_filter fs = false ->
      conditions_of fs = add_valor fs (before_dates fs)
      /\ forall start finish : option date,
          build_where_clause (with_dates fs start finish) = build_where_clause fs).
Proof.
  split.
  - intros d Hon Hstart Hend.
    unfold QueryBuilder.conditions_of, before_dates, add_data.
    rewrite Hon, Hstart, Hend. reflexivity.
  - intros Hoff. split.
    + unfold QueryBuilder.conditions_of.
      rewrite add_data_off by assumption. reflexivity.
    + intros start finish.
      unfold QueryBuilder.build_where_clause, QueryBuilder.conditions_of.
      rewrite !add_data_off by assumption.
      reflexivity.
Qed.

Lemma zero_not_positive (v : float) : is_zero v = true -> gt_zero v = false.
Proof.
  unfold is_zero, gt_zero.
  rewrite eqb_spec, ltb_spec.
  replace (Prim2SF 0) with (S754_zero false) by reflexivity.
  destruct (Prim2SF v) as [sg | sg | | sg m e]; try destruct sg; cbn;
    intros H; try discriminate H; reflexivity.
Qed.

(** C7: with the value toggle on, a minimum of zero adds no lower bound
    and a maximum of zero adds no upper bound; each bound is dropped on
    its own, the other is added exactly when it is greater than zero. *)
Theorem zero_value_bound_is_unset (fs : FilterState) :
  use_value_filter fs = true ->
  let prior := add_data fs (before_dates fs) in
  (is_zero (filtro_valor_min fs) = true ->
     conditions_of fs =
     if gt_zero (filtro_valor_max fs)
     then append prior (value_le float_str (filtro_valor_max fs))
     else prior)
  /\
  (is_zero (filtro_valor_max fs) = true ->
     conditions_of fs =
     if gt_zero (filtro_valor_min fs)
     then append prior (value_ge float_str (filtro_valor_min fs))
     else prior).
Proof.
  intros Hon prior.
  unfold QueryBuilder.conditions_of, QueryBuilder.add_valor.
  fold (before_dates fs). fold prior. rewrite Hon.
  split; intros Hz; rewrite (zero_not_positive _ Hz); reflexivity.
Qed.

Lemma filled_app (a b : list (option string)) :
  filled (a ++ b) = (filled a ++ filled b)%list.
Proof.
  induction a as [| [c |] a IH]; simpl; [reflexivity | now rewrite IH | exact IH].
Qed.

Lemma conditions_of_slots fs :
  conditions_of fs = filled (slots float_str fs).
Proof.
  rewrite conditions_of_spec.
  unfold spec_conditions, slots, membership, date_range, value_range, positive.
  destruct (filtro_categoria fs), (filtro_modalidade fs), (filtro_estado fs);
    destruct (use_date_filter fs), (filtro_data_inicio fs), (filtro_data_fim fs);
    destruct (use_value_filter fs),
      (gt_zero (filtro_valor_min fs)), (gt_zero (filtro_valor_max fs));
    reflexivity.
Qed.

(** C10: the conditions come out in one fixed order (categories,
    modalities, states, date lower bound, date upper bound, value lower
    bound, value upper bound), each present exactly when its field is
    enabled, so equal filter states give the identical predicate. *)
Theorem conditions_in_fixed_order (fs : FilterState) :
  conditions_of fs = filled (slots float_str fs)
  /\ build_where_clause fs =
     (if truthy (filled (slots float_str fs))
      then Some (join " AND " (filled (slots float_str fs)))
      else None)
  /\ forall fs' : FilterState,
      fs' = fs -> build_where_clause fs' = build_where_clause fs.
Proof.
  split; [apply conditions_of_slots |].
  split.
  - unfold QueryBuilder.build_where_clause. cbv zeta.
    rewrite conditions_of_slots. reflexivity.
  - intros fs' ->. reflexivity.
Qed.

End WithFormatter.

Import Samples.

(** Witness of C4: everything off, with bounds still stored. *)
Lemma empty_filter_state_example :
  build_where_clause repr_sample all_disabled = None.
Proof. apply empty_filter_state_gives_no_predicate; reflexivity. Defined.

(** Witness of C6: a start bound alone, and a toggle that is off. *)
Lemma date_toggle_example :
  conditions_of repr_sample only_start
  = ["c.categoria IN ('Atleta Pódio')"; "p.data_pagamento >= '2020-01-02'"]
  /\ build_where_clause repr_sample
       (with_dates dates_off (Some first_day) (Some last_day))
     = Some "c.categoria IN ('Atleta Pódio')".
Proof.
  split.
  - rewrite (proj1 (date_toggle_controls_date_bounds repr_sample only_start)
               first_day eq_refl eq_refl eq_refl).
    reflexivity.
  - rewrite (proj2 (proj2 (date_toggle_controls_date_bounds repr_sample dates_off)
               eq_refl)).
    reflexivity.
Defined.

(** Witness of C7: a zero minimum beside a set maximum, and the
    converse. *)
Lemma zero_value_bound_example :
  conditions_of repr_sample no_minimum = ["p.valor_pago <= 100.0"]
  /\ conditions_of repr_sample no_maximum = ["p.valor_pago >= 2500.5"].
Proof.
  split.
  - rewrite (proj1 (zero_value_bound_is_unset repr_sample no_minimum eq_refl)
               eq_refl).
    reflexivity.
  - rewrite (proj2 (zero_value_bound_is_unset repr_sample no_maximum eq_refl)
               eq_refl).
    reflexivity.
Defined.

(** Witness of C10: every field enabled. *)
Lemma fixed_order_example :
  build_where_clause repr_sample all_enabled
  = Some ("c.categoria IN ('Atleta Pódio') AND m.modalidade IN ('Judô')"
          ++ " AND mu.uf IN ('SP', 'RJ')"
          ++ " AND p.data_pagamento >= '2020-01-02'"
          ++ " AND p.data_pagamento <= '2024-12-31'"
          ++ " AND p.valor_pago >= 100.0 AND p.valor_pago <= 2500.5").
Proof.
  rewrite (proj1 (proj2 (conditions_in_fixed_order repr_sample all_enabled))).
  reflexivity.
Defined.

End BuilderProps.

(** * Properties of the membership conditions *)

Module MembershipProps.

Import QueryBuilder BuilderSpec SqlText Samples.

Lemma string_app_assoc (a b c : string) : ((a ++ b) ++ c = a ++ (b ++ c))%string.
Proof. induction a as [| x a IH]; simpl; [reflexivity | now rewrite IH]. Qed.

Lemma string_app_empty (a : string) : (a ++ "")%string = a.
Proof. induction a as [| x a IH]; simpl; [reflexivity | now rewrite IH]. Qed.

Lemma strip_prefix_app (a b c : string) :
  strip_prefix (a ++ b) (a ++ c) = strip_prefix b c.
Proof.
  induction a as [| x a IH]; simpl; [reflexivity |].
  now rewrite Ascii.eqb_refl.
Qed.

(** Inside a literal, a value without quotes is read as it stands. *)
Lemma read_quote_free_value (v : string) :
  quote_free v = true ->
  forall (value : string) (items : list string) (rest : string),
    read_list (InLiteral value) items (v ++ rest)
    = read_list (InLiteral (value ++ v)) items rest.
Proof.
  induction v as [| c v IH]; simpl; intros Hq value items rest.
  - now rewrite string_app_empty.
  - apply andb_prop in Hq. destruct Hq as [Hc Hv].
    apply negb_true_iff in Hc. rewrite Hc.
    rewrite (IH Hv). unfold snoc. now rewrite string_app_assoc.
Qed.

Lemma read_open (items : list string) (text : string) :
  read_list BeforeLiteral items (String quote text)
  = read_list (InLiteral "") items text.
Proof. reflexivity. Qed.

Lemma read_last (value : string) (items : list string) :
  read_list (InLiteral value) items "')" = Some (append items value).
Proof. reflexivity. Qed.

Lemma read_separator (value : string) (items : list string) (text : string) :
  read_list (InLiteral value) items ("', '" ++ text)
  = read_list (InLiteral "") (append items value) text.
Proof. reflexivity. Qed.

(** The spliced list of quote-free values is read back as those values. *)
Lemma read_spliced_values (values : list string) :
  values <> [] ->
  all_quote_free values ->
  forall items : list string,
    read_list (InLiteral "") items (join "', '" values ++ "')")
    = Some (items ++ values)%list.
Proof.
  induction values as [| v rest IH]; intros Hne Hq items; [congruence |].
  inversion Hq as [| v' rest' Hv Hrest]; subst.
  destruct rest as [| v2 rest].
  - change (join "', '" [v]) with v.
    rewrite (read_quote_free_value v Hv), read_last. reflexivity.
  - change (join "', '" (v :: v2 :: rest))
      with (v ++ "', '" ++ join "', '" (v2 :: rest))%string.
    rewrite string_app_assoc, (read_quote_free_value v Hv).
    rewrite string_app_assoc, read_separator.
    rewrite IH by (assumption || discriminate).
    unfold append. cbn [String.append]. now rewrite <- app_assoc.
Qed.

Lemma read_in_condition_quote_free (column : string) (values : list string) :
  values <> [] ->
  all_quote_free values ->
  read_in_condition column (in_condition column values) = Some values.
Proof.
  intros Hne Hq. unfold read_in_condition, in_condition.
  change (column ++ " IN ('" ++ join "', '" values ++ "')")%string
    with (column ++ (" IN (" ++ String quote (join "', '" values ++ "')")))%string.
  rewrite strip_prefix_app.
  change (read_list BeforeLiteral [] (String quote (join "', '" values ++ "')"))
          = Some values).
  rewrite read_open.
  exact (read_spliced_values values Hne Hq []).
Qed.

Lemma in_matches_quote_free (column : string) (values : list string) :
  values <> [] ->
  all_quote_free values ->
  membership_test column values (in_condition column values).
Proof.
  intros Hne Hq field. unfold in_matches.
  rewrite read_in_condition_quote_free by assumption.
  rewrite existsb_exists. split.
  - intros [x [Hin Heq]]. apply String.eqb_eq in Heq. now subst.
  - intros Hin. exists field. split; [assumption | apply String.eqb_refl].
Qed.

Lemma all_quote_free_incl (values more : list string) :
  incl values more -> all_quote_free more -> all_quote_free values.
Proof.
  unfold all_quote_free. intros Hincl Hmore.
  rewrite Forall_forall in *. intros v Hv. apply Hmore, Hincl, Hv.
Qed.

(** C8, amended: when no selected value contains a single quote, each
    non-empty set contributes a condition that SQLite reads as the test
    of membership in exactly that set, and a quote-free superset of the
    set matches every row the set matched. *)
Theorem quote_free_sets_give_membership_tests (fs : FilterState)
    (conditions : list string) :
  all_quote_free (filtro_categoria fs) ->
  all_quote_free (filtro_modalidade fs) ->
  all_quote_free (filtro_estado fs) ->
  (filtro_categoria fs <> [] ->
     add_categoria fs conditions
     = append conditions (in_condition "c.categoria" (filtro_categoria fs))
     /\ membership_test "c.categoria" (filtro_categoria fs)
          (in_condition "c.categoria" (filtro_categoria fs)))
  /\ (filtro_modalidade fs <> [] ->
     add_modalidade fs conditions
     = append conditions (in_condition "m.modalidade" (filtro_modalidade fs))
     /\ membership_test "m.modalidade" (filtro_modalidade fs)
          (in_condition "m.modalidade" (filtro_modalidade fs)))
  /\ (filtro_estado fs <> [] ->
     add_estado fs conditions
     = append conditions (in_condition "mu.uf" (filtro_estado fs))
     /\ membership_test "mu.uf" (filtro_estado fs)
          (in_condition "mu.uf" (filtro_estado fs)))
  /\ (forall (column : string) (values more : list string) (field : string),
        values <> [] ->
        all_quote_free more ->
        incl values more ->
        in_matches column (in_condition column values) field = true ->
        in_matches column (in_condition column more) field = true).
Proof.
  intros Hc Hm He. repeat apply conj.
  - intros Hne. split; [| now apply in_matches_quote_free].
    unfold add_categoria. destruct (filtro_categoria fs); [congruence | reflexivity].
  - intros Hne. split; [| now apply in_matches_quote_free].
    unfold add_modalidade. destruct (filtro_modalidade fs); [congruence | reflexivity].
  - intros Hne. split; [| now apply in_matches_quote_free].
    unfold add_estado. destruct (filtro_estado fs); [congruence | reflexivity].
  - intros column values more field Hne Hmore Hincl Hmatch.
    assert (Hmne : more <> []).
    { destruct values as [| v values]; [congruence |].
      intros ->. exact (Hincl v (or_introl eq_refl)). }
    apply (in_matches_quote_free column more Hmne Hmore).
    apply Hincl.
    apply (in_matches_quote_free column values Hne
             (all_quote_free_incl values more Hincl Hmore)).
    exact Hmatch.
Qed.

(** Witness of C8: three quote-free selections. *)
Lemma quote_free_sets_example :
  membership_test "c.categoria" ["Atleta Pódio"; "Atleta de Base"]
    "c.categoria IN ('Atleta Pódio', 'Atleta de Base')".
Proof.
  apply (quote_free_sets_give_membership_tests plain_selection []).
  - repeat constructor.
  - repeat constructor.
  - repeat constructor.
  - discriminate.
Defined.

(** Counterexample to C8 as stated: the single selected value [a', 'b]
    gives the text that the two values [a] and [b] give; SQLite reads it
    as membership in these two, so a row whose category is [b] matches
    although [b] was not selected.  And adding the value [b'] to the
    selection [a] gives a text with an unterminated literal, which
    matches no row at all, not even those that [a] alone matched. *)
Lemma quoted_value_is_not_a_membership_test :
  build_where_clause repr_sample quoted_selection
  = Some "c.categoria IN ('a', 'b')"
  /\ in_matches "c.categoria" "c.categoria IN ('a', 'b')" "b" = true
  /\ ~ In "b" (filtro_categoria quoted_selection)
  /\ ~ membership_test "c.categoria" (filtro_categoria quoted_selection)
        (in_condition "c.categoria" (filtro_categoria quoted_selection))
  /\ in_matches "c.categoria" (in_condition "c.categoria" ["a"]) "a" = true
  /\ in_matches "c.categoria" (in_condition "c.categoria" ["a"; "b'"]) "a" = false.
Proof.
  assert (Hnot : ~ In "b" (filtro_categoria quoted_selection)).
  { intros [H | []]. discriminate H. }
  repeat apply conj; try reflexivity.
  - exact Hnot.
  - intros Hm. apply Hnot. apply (Hm "b"). reflexivity.
Qed.

End MembershipProps.

(** * Properties of the connection guardian *)

Module GuardianProps.

Import Guardian.

Local Open Scope list_scope.

Section Facts.

Context {World DataFrame : Type}.
Variable lib : Outside World DataFrame.

Local Abbreviation get_valid_connection := (get_valid_connection lib).
Local Abbreviation open_connection := (open_connection lib).
Local Abbreviation fetch_query := (fetch_query lib).
Local Abbreviation read_sql_query := (read_sql_query lib).
Local Abbreviation invalidated := (invalidated lib).

Ltac run :=
  unfold Guardian.get_valid_connection, Guardian.open_connection,
    Guardian.fetch_query, bind, ret, try_except, try_pass, get_cache,
    set_cache, conn_execute, conn_close, path_exists, sqlite3_connect,
    Guardian.read_sql_query, st_error, st_stop; cbn.

(** *** Opening a connection *)

Lemma open_connection_absent (s : State World) (w : World) :
  lib_exists lib db_path (world s) = (w, false) ->
  open_connection s
  = (Stop, record (record s w (Exists db_path)) w (StError not_found_message)).
Proof. intros E. run. rewrite E. reflexivity. Qed.

Lemma open_connection_refused (s : State World) (w1 w2 : World) (e : exception) :
  lib_exists lib db_path (world s) = (w1, true) ->
  lib_connect lib db_path w1 = (w2, inr e) ->
  open_connection s
  = (Raise e, record (record s w1 (Exists db_path)) w2 (Connect db_path)).
Proof. intros E1 E2. run. rewrite E1. cbn. rewrite E2. reflexivity. Qed.

Lemma open_connection_connected (s : State World) (w1 w2 w3 : World)
    (c : Connection) (r : option exception) :
  lib_exists lib db_path (world s) = (w1, true) ->
  lib_connect lib db_path w1 = (w2, inl c) ->
  lib_execute lib c pragma w2 = (w3, r) ->
  open_connection s
  = (match r with None => Return c | Some e => Raise e end,
     mkState w3 (Some c)
       (log s ++ [Exists db_path; Connect db_path; Execute c pragma])).
Proof.
  intros E1 E2 E3. run. rewrite E1. cbn. rewrite E2. cbn.
  unfold pragma in E3. rewrite E3.
  unfold record, append. cbn. rewrite <- !app_assoc.
  destruct r; reflexivity.
Qed.

(** Opening only appends to the log, and neither closes a connection nor
    runs a query; a connection it returns is the cached one. *)
Lemma open_connection_effects (s s' : State World) (r : Result Connection) :
  open_connection s = (r, s') ->
  (exists tl, log s' = log s ++ tl
              /\ count is_close tl = 0 /\ count is_read tl = 0
              /\ (forall c, r = Return c -> count is_connect tl = 1))
  /\ (forall c, r = Return c -> _conn_cache s' = Some c).
Proof.
  destruct (lib_exists lib db_path (world s)) as [w1 [|]] eqn:E1.
  - destruct (lib_connect lib db_path w1) as [w2 [c | e]] eqn:E2.
    + destruct (lib_execute lib c pragma w2) as [w3 r3] eqn:E3.
      rewrite (open_connection_connected s w1 w2 w3 c r3 E1 E2 E3).
      intros H. inversion H; subst; clear H. cbn. split.
      * eexists. split; [reflexivity |].
        split; [reflexivity | split; [reflexivity | intros; reflexivity]].
      * intros c0 Hc0. destruct r3; [discriminate | congruence].
    + rewrite (open_connection_refused s w1 w2 e E1 E2).
      intros H. inversion H; subst; clear H. cbn. split.
      * exists [Exists db_path; Connect db_path]. unfold append.
        rewrite <- app_assoc.
        split; [reflexivity | split; [reflexivity | split; [reflexivity | discriminate]]].
      * discriminate.
  - rewrite (open_connection_absent s w1 E1).
    intros H. inversion H; subst; clear H. cbn. split.
    + exists [Exists db_path; StError not_found_message]. unfold append.
      rewrite <- app_assoc.
      split; [reflexivity | split; [reflexivity | split; [reflexivity | discriminate]]].
    + discriminate.
Qed.

(** *** Validating the cached connection *)

Lemma get_valid_connection_no_cache (s : State World) :
  _conn_cache s = None -> get_valid_connection s = open_connection s.
Proof. intros E. run. rewrite E. reflexivity. Qed.

Lemma get_valid_connection_probe (s : State World) (c : Connection)
    (w : World) (r : option exception) :
  _conn_cache s = Some c ->
  lib_execute lib c probe (world s) = (w, r) ->
  get_valid_connection s
  = match r with
    | None => (Return c, record s w (Execute c probe))
    | Some e =>
        if connection_lost e
        then open_connection (invalidated (record s w (Execute c probe)) c)
        else (Raise e, record s w (Execute c probe))
    end.
Proof.
  intros E1 E2. unfold Guardian.get_valid_connection, bind, get_cache.
  rewrite E1. unfold try_except, bind, conn_execute. unfold probe in E2.
  rewrite E2. destruct r as [e |]; [| reflexivity].
  destruct (connection_lost e); [| reflexivity].
  unfold try_pass, conn_close, set_cache, ret, Guardian.invalidated. cbn.
  destruct (lib_close lib c w) as [w' [e' |]]; reflexivity.
Qed.

Lemma get_valid_connection_cached (s s1 : State World) (c : Connection) :
  get_valid_connection s = (Return c, s1) -> _conn_cache s1 = Some c.
Proof.
  destruct (_conn_cache s) as [c0 |] eqn:E.
  - destruct (lib_execute lib c0 probe (world s)) as [w r] eqn:Ep.
    rewrite (get_valid_connection_probe s c0 w r E Ep).
    destruct r as [e |].
    + destruct (connection_lost e); [| discriminate].
      intros H. apply open_connection_effects in H. now apply H.
    + intros H. inversion H; subst. exact E.
  - rewrite (get_valid_connection_no_cache s E).
    intros H. apply open_connection_effects in H. now apply H.
Qed.


(** *** Running a query *)

Lemma since_app (s s' : State World) (tl : list Event) :
  log s' = log s ++ tl -> since s s' = tl.
Proof.
  intros E. unfold since. rewrite E, skipn_app, skipn_all, Nat.sub_diag.
  reflexivity.
Qed.

Lemma fetch_query_not_validated (query : string) (conn : option Connection)
    (s s1 : State World) (r : Result Connection) :
  get_valid_connection s = (r, s1) ->
  (forall e, r = Raise e -> fetch_query query conn s = (Raise e, s1))
  /\ (r = Stop -> fetch_query query conn s = (Stop, s1)).
Proof.
  intros E. unfold Guardian.fetch_query, bind. rewrite E.
  split; [intros e -> | intros ->]; reflexivity.
Qed.

Lemma fetch_query_first_attempt (query : string) (conn : option Connection)
    (s s1 : State World) (c : Connection) (w : World)
    (r : DataFrame + exception) :
  get_valid_connection s = (Return c, s1) ->
  lib_read_sql_query lib query c (world s1) = (w, r) ->
  fetch_query query conn s
  = match r with
    | inl df => (Return df, record s1 w (ReadSql query c))
    | inr e =>
        if connection_lost e
        then bind open_connection (read_sql_query query)
               (invalidated (record s1 w (ReadSql query c)) c)
        else (Raise e, record s1 w (ReadSql query c))
    end.
Proof.
  intros E1 E2.
  pose proof (get_valid_connection_cached s s1 c E1) as Hc.
  unfold Guardian.fetch_query at 1. unfold bind at 1. rewrite E1.
  unfold try_except, Guardian.read_sql_query at 1. rewrite E2.
  destruct r as [df | e]; [reflexivity |].
  destruct (connection_lost e); [| reflexivity].
  unfold bind at 1. unfold try_pass, bind at 1. unfold get_cache. cbn [record _conn_cache].
  rewrite Hc. unfold conn_close. cbn [world record].
  unfold Guardian.invalidated. cbn [world log record fst].
  destruct (lib_close lib c w) as [w' [e' |]]; cbn [fst];
    unfold bind at 1; unfold set_cache; cbn [world log record _conn_cache];
    unfold bind at 1;
    rewrite get_valid_connection_no_cache by reflexivity;
    reflexivity.
Qed.

(** C2: an error outside the three connection-lost classes ends the call
    at once: it is raised to the caller, the connection the query ran on
    stays cached, and after validation nothing happened but the one
    execution of the query. *)
Theorem other_errors_are_not_recovered (query : string)
    (conn : option Connection) (s s1 : State World) (c : Connection)
    (w : World) (e : exception) :
  get_valid_connection s = (Return c, s1) ->
  lib_read_sql_query lib query c (world s1) = (w, inr e) ->
  connection_lost e = false ->
  fetch_query query conn s = (Raise e, record s1 w (ReadSql query c))
  /\ _conn_cache (snd (fetch_query query conn s)) = Some c
  /\ since s1 (snd (fetch_query query conn s)) = [ReadSql query c].
Proof.
  intros E1 E2 He.
  rewrite (fetch_query_first_attempt query conn s s1 c w _ E1 E2), He.
  split; [reflexivity |]. split.
  - exact (get_valid_connection_cached s s1 c E1).
  - apply since_app. reflexivity.
Qed.

(** C1, amended: after a connection-lost error the connection is closed
    once, whatever the close does, and the cache is cleared; then a
    connection is opened.  If that yields a connection, the query runs on
    it exactly once more and the outcome of that run, value or error, is
    the outcome of the call.  If it does not (store file missing,
    [connect] or the busy-timeout statement failing), the query is not
    run again and the call ends the way the opening ended. *)
Theorem connection_lost_is_retried_once (query : string)
    (conn : option Connection) (s s1 : State World) (c : Connection)
    (w : World) (e : exception) :
  get_valid_connection s = (Return c, s1) ->
  lib_read_sql_query lib query c (world s1) = (w, inr e) ->
  connection_lost e = true ->
  let failed := record s1 w (ReadSql query c) in
  let final := snd (fetch_query query conn s) in
  (exists tl, since failed final = Close c :: tl /\ count is_close tl = 0)
  /\ match open_connection (invalidated failed c) with
     | (Return c', opened) =>
         _conn_cache opened = Some c'
         /\ count is_connect (since failed opened) = 1
         /\ fetch_query query conn s = read_sql_query query c' opened
         /\ count is_read (since failed final) = 1
         /\ (forall w' e',
                lib_read_sql_query lib query c' (world opened) = (w', inr e') ->
                fst (fetch_query query conn s) = Raise e')
     | (Raise e', opened) =>
         fetch_query query conn s = (Raise e', opened)
         /\ count is_read (since failed final) = 0
     | (Stop, opened) =>
         fetch_query query conn s = (Stop, opened)
         /\ count is_read (since failed final) = 0
     end.
Proof.
  intros E1 E2 He failed final.
  assert (Hf : fetch_query query conn s
               = bind open_connection (read_sql_query query) (invalidated failed c)).
  { rewrite (fetch_query_first_attempt query conn s s1 c w _ E1 E2), He.
    reflexivity. }
  subst final. rewrite Hf. unfold bind.
  destruct (open_connection (invalidated failed c)) as [r opened] eqn:Eo.
  destruct (open_connection_effects _ _ _ Eo) as [[tl [Hlog [Hcl [Hrd Hcn]]]] Hcache].
  assert (Hopened : log opened = log failed ++ Close c :: tl).
  { rewrite Hlog. unfold Guardian.invalidated, append. cbn [log].
    rewrite <- app_assoc. reflexivity. }
  destruct r as [c' | e' |].
  - assert (Hfinal : log (snd (read_sql_query query c' opened))
                     = log failed ++ Close c :: tl ++ [ReadSql query c']).
    { unfold Guardian.read_sql_query.
      destruct (lib_read_sql_query lib query c' (world opened)) as [w' [df | e']];
        cbn [snd record log]; unfold append; rewrite Hopened, <- app_assoc;
        reflexivity. }
    split.
    + exists (tl ++ [ReadSql query c']). split.
      * apply since_app. exact Hfinal.
      * unfold count in *. rewrite filter_app, length_app, Hcl. reflexivity.
    + split; [exact (Hcache c' eq_refl) |].
      split.
      { rewrite (since_app _ _ _ Hopened). unfold count in *. cbn [filter is_connect].
        exact (Hcn c' eq_refl). }
      split; [reflexivity |].
      split.
      { rewrite (since_app _ _ _ Hfinal). unfold count in *.
        cbn [filter is_read]. rewrite filter_app, length_app, Hrd. reflexivity. }
      intros w' e' Er. unfold Guardian.read_sql_query. rewrite Er. reflexivity.
  - cbn [snd]. split.
    + exists tl. split; [now apply since_app | assumption].
    + split; [reflexivity |].
      rewrite (since_app _ _ _ Hopened). unfold count in *.
      cbn [filter is_read]. exact Hrd.
  - cbn [snd]. split.
    + exists tl. split; [now apply since_app | assumption].
    + split; [reflexivity |].
      rewrite (since_app _ _ _ Hopened). unfold count in *.
      cbn [filter is_read]. exact Hrd.
Qed.


Lemma retry_extends_log (query : string) (s0 : State World) :
  exists tl,
    log (snd (bind open_connection (read_sql_query query) s0)) = log s0 ++ tl.
Proof.
  unfold bind.
  destruct (open_connection s0) as [r opened] eqn:Eo.
  destruct (open_connection_effects _ _ _ Eo) as [[tl [Hlog _]] _].
  destruct r as [c' | e' |]; cbn [snd]; try (exists tl; exact Hlog).
  unfold Guardian.read_sql_query.
  destruct (lib_read_sql_query lib query c' (world opened)) as [w' [df | e']];
    cbn [snd record log]; unfold append; rewrite Hlog, <- app_assoc;
    eexists; reflexivity.
Qed.

(** C9: the [conn] argument does not matter.  Two calls that differ only
    in it are the same computation; the query runs on the connection
    that [get_valid_connection] returned, which is the cached one, and
    when validation fails the call ends as validation ended. *)
Theorem conn_argument_is_ignored (query : string)
    (conn1 conn2 : option Connection) (s : State World) :
  fetch_query query conn1 s = fetch_query query conn2 s
  /\ match get_valid_connection s with
     | (Return c, s1) =>
         _conn_cache s1 = Some c
         /\ exists tl,
             since s1 (snd (fetch_query query conn1 s)) = ReadSql query c :: tl
     | (Raise e, s1) => fetch_query query conn1 s = (Raise e, s1)
     | (Stop, s1) => fetch_query query conn1 s = (Stop, s1)
     end.
Proof.
  split; [reflexivity |].
  destruct (get_valid_connection s) as [r s1] eqn:E.
  destruct r as [c | e |].
  - split; [exact (get_valid_connection_cached s s1 c E) |].
    destruct (lib_read_sql_query lib query c (world s1)) as [w r] eqn:Er.
    rewrite (fetch_query_first_attempt query conn1 s s1 c w r E Er).
    destruct r as [df | e].
    + exists []. apply since_app. reflexivity.
    + destruct (connection_lost e).
      * destruct (retry_extends_log query
                    (invalidated (record s1 w (ReadSql query c)) c)) as [tl Htl].
        exists (Close c :: tl). apply since_app. rewrite Htl.
        unfold Guardian.invalidated, record, append. cbn [log].
        rewrite <- !app_assoc. reflexivity.
      * exists []. apply since_app. reflexivity.
  - exact (proj1 (fetch_query_not_validated query conn1 s s1 _ E) e eq_refl).
  - exact (proj2 (fetch_query_not_validated query conn1 s s1 _ E) eq_refl).
Qed.

(** C3, amended: a cached connection whose probe succeeds is returned
    as it is.  A probe that fails with one of the three connection-lost
    classes makes the function close the connection, ignore what the
    close did, clear the cache and go on to open a connection; a probe
    that fails otherwise raises its error and leaves the cache alone.
    Without a cached connection the function opens one.  Opening ends
    the session with the not-found message when the store file is
    missing, whether or not a connection had been cached before, and
    otherwise returns the new connection, now cached, once [connect] and
    the busy-timeout statement have succeeded. *)
Theorem get_valid_connection_cases (s : State World) :
  (forall c w,
      _conn_cache s = Some c ->
      lib_execute lib c probe (world s) = (w, None) ->
      get_valid_connection s = (Return c, record s w (Execute c probe)))
  /\ (forall c w e,
      _conn_cache s = Some c ->
      lib_execute lib c probe (world s) = (w, Some e) ->
      connection_lost e = true ->
      get_valid_connection s
      = open_connection (invalidated (record s w (Execute c probe)) c))
  /\ (forall c w e,
      _conn_cache s = Some c ->
      lib_execute lib c probe (world s) = (w, Some e) ->
      connection_lost e = false ->
      get_valid_connection s = (Raise e, record s w (Execute c probe)))
  /\ (_conn_cache s = None -> get_valid_connection s = open_connection s)
  /\ (forall s0 w,
      lib_exists lib db_path (world s0) = (w, false) ->
      open_connection s0
      = (Stop, record (record s0 w (Exists db_path)) w (StError not_found_message)))
  /\ (forall s0 w1 w2 w3 c',
      lib_exists lib db_path (world s0) = (w1, true) ->
      lib_connect lib db_path w1 = (w2, inl c') ->
      lib_execute lib c' pragma w2 = (w3, None) ->
      open_connection s0
      = (Return c',
         mkState w3 (Some c')
           (log s0 ++ [Exists db_path; Connect db_path; Execute c' pragma]))).
Proof.
  repeat apply conj.
  - intros c w Ec Ep. now rewrite (get_valid_connection_probe s c w None Ec Ep).
  - intros c w e Ec Ep He.
    now rewrite (get_valid_connection_probe s c w (Some e) Ec Ep), He.
  - intros c w e Ec Ep He.
    now rewrite (get_valid_connection_probe s c w (Some e) Ec Ep), He.
  - apply get_valid_connection_no_cache.
  - intros s0 w. apply open_connection_absent.
  - intros s0 w1 w2 w3 c' E1 E2 E3.
    exact (open_connection_connected s0 w1 w2 w3 c' None E1 E2 E3).
Qed.

End Facts.

End GuardianProps.

(** * The guardian on the simulated outside *)

Module Scenarios.

Import Guardian Sim.

Local Open Scope list_scope.

(** Witness of C1: the database is locked for one attempt; the retry on
    the new connection [1] returns the table. *)
Lemma retry_example :
  fetch_query outside "Q" None (session true 1)
  = read_sql_query outside "Q" 1
      (mkState (mkWorld true [1] 2 0) (Some 1)
         [Execute 0 probe; ReadSql "Q" 0; Close 0; Exists db_path;
          Connect db_path; Execute 1 pragma])
  /\ fst (fetch_query outside "Q" None (session true 1)) = Return "Q"
  /\ count is_read
       (since (record (validated true 1) (mkWorld true [0] 1 0) (ReadSql "Q" 0))
              (snd (fetch_query outside "Q" None (session true 1))))
     = 1.
Proof.
  pose proof (GuardianProps.connection_lost_is_retried_once outside "Q" None
                (session true 1) (validated true 1) 0 (mkWorld true [0] 1 0)
                OperationalError eq_refl eq_refl eq_refl) as H.
  destruct H as [_ H].
  change (open_connection outside
            (invalidated outside
               (record (validated true 1) (mkWorld true [0] 1 0) (ReadSql "Q" 0)) 0))
    with (@Return Connection 1,
          mkState (mkWorld true [1] 2 0) (Some 1)
            [Execute 0 probe; ReadSql "Q" 0; Close 0; Exists db_path;
             Connect db_path; Execute 1 pragma]) in H.
  destruct H as [_ [_ [Hrun [Hreads _]]]].
  split; [exact Hrun |]. split; [reflexivity | exact Hreads].
Defined.

(** Witness of C2: a statement that pandas rejects with its own
    [DatabaseError]. *)
Lemma rejected_query_example :
  fetch_query (rejecting PandasDatabaseError) "Q" None (session true 0)
  = (Raise PandasDatabaseError,
     record (validated true 0) (mkWorld true [0] 1 0) (ReadSql "Q" 0))
  /\ _conn_cache
       (snd (fetch_query (rejecting PandasDatabaseError) "Q" None (session true 0)))
     = Some 0
  /\ since (validated true 0)
       (snd (fetch_query (rejecting PandasDatabaseError) "Q" None (session true 0)))
     = [ReadSql "Q" 0].
Proof.
  exact (GuardianProps.other_errors_are_not_recovered
           (rejecting PandasDatabaseError) "Q" None
           (session true 0) (validated true 0) 0 (mkWorld true [0] 1 0)
           PandasDatabaseError eq_refl eq_refl eq_refl).
Defined.

(** Witness of C3: a live cached connection, a stale one with the store
    in place, and a first call without the store. *)
Lemma get_valid_connection_example :
  get_valid_connection outside (session true 0) = (Return 0, validated true 0)
  /\ get_valid_connection outside (stale_session true)
     = (Return 1,
        mkState (mkWorld true [1] 2 0) (Some 1)
          [Execute 0 probe; Close 0; Exists db_path; Connect db_path;
           Execute 1 pragma])
  /\ open_connection outside (fresh_session false)
     = (Stop,
        mkState (mkWorld false [] 0 0) None
          [Exists db_path; StError not_found_message]).
Proof.
  split; [| split].
  - exact (proj1 (GuardianProps.get_valid_connection_cases outside (session true 0))
             0 (mkWorld true [0] 1 0) eq_refl eq_refl).
  - rewrite (proj1 (proj2 (GuardianProps.get_valid_connection_cases outside
                             (stale_session true)))
               0 (mkWorld true [] 1 0) ProgrammingError eq_refl eq_refl eq_refl).
    reflexivity.
  - exact (proj1 (proj2 (proj2 (proj2 (proj2
             (GuardianProps.get_valid_connection_cases outside (fresh_session false))))))
             (fresh_session false) (mkWorld false [] 0 0) eq_refl).
Defined.

(** Counterexample to C1 as stated: the query fails with an
    [OperationalError], the connection is closed, but the store file is
    gone; the session stops, the query has run once and is never run
    again, and no connection is opened. *)
Lemma lost_store_is_not_retried :
  get_valid_connection outside (session false 1) = (Return 0, validated false 1)
  /\ lib_read_sql_query outside "Q" 0 (world (validated false 1))
     = (mkWorld false [0] 1 0, inr OperationalError)
  /\ connection_lost OperationalError = true
  /\ fst (fetch_query outside "Q" None (session false 1)) = Stop
  /\ log (snd (fetch_query outside "Q" None (session false 1)))
     = [Execute 0 probe; ReadSql "Q" 0; Close 0; Exists db_path;
        StError not_found_message]
  /\ count is_read (log (snd (fetch_query outside "Q" None (session false 1)))) = 1
  /\ count is_connect (log (snd (fetch_query outside "Q" None (session false 1)))) = 0.
Proof. repeat split. Qed.

(** Counterexample to C3 as stated: a cached connection exists, its
    probe fails, it is closed, but the store file is gone; no connection
    is opened and the session stops. *)
Lemma stale_connection_without_store_stops :
  _conn_cache (stale_session false) = Some 0
  /\ lib_execute outside 0 probe (world (stale_session false))
     = (world (stale_session false), Some ProgrammingError)
  /\ get_valid_connection outside (stale_session false)
     = (Stop,
        mkState (mkWorld false [] 1 0) None
          [Execute 0 probe; Close 0; Exists db_path; StError not_found_message])
  /\ count is_connect (log (snd (get_valid_connection outside (stale_session false))))
     = 0.
Proof. repeat split. Qed.

End Scenarios.

(** * Further properties of the connection guardian *)

Module GuardianExtras.

Import Guardian.

Local Open Scope list_scope.

Section Facts.

Context {World DataFrame : Type}.
Variable lib : Outside World DataFrame.

Local Abbreviation get_valid_connection := (get_valid_connection lib).
Local Abbreviation open_connection := (open_connection lib).
Local Abbreviation fetch_query := (fetch_query lib).
Local Abbreviation read_sql_query := (read_sql_query lib).
Local Abbreviation ensure_valid_connection := (ensure_valid_connection lib).
Local Abbreviation invalidated := (invalidated lib).

Ltac conjs := repeat match goal with |- _ /\ _ => split end.

Lemma count_app (p : Event -> bool) (a b : list Event) :
  count p (a ++ b) = count p a + count p b.
Proof. unfold count. now rewrite filter_app, length_app. Qed.

(** What one call of [open_connection] appends to the log, and what it
    leaves in the cache. *)
Lemma open_connection_shape (s s' : State World) (r : Result Connection) :
  open_connection s = (r, s') ->
  (r = Stop /\ _conn_cache s' = _conn_cache s
   /\ log s' = log s ++ [Exists db_path; StError not_found_message])
  \/ (exists e, r = Raise e /\ _conn_cache s' = _conn_cache s
      /\ log s' = log s ++ [Exists db_path; Connect db_path])
  \/ (exists c, (r = Return c \/ exists e, r = Raise e)
      /\ _conn_cache s' = Some c
      /\ log s' = log s ++ [Exists db_path; Connect db_path; Execute c pragma]).
Proof.
  destruct (lib_exists lib db_path (world s)) as [w1 [|]] eqn:E1.
  - destruct (lib_connect lib db_path w1) as [w2 [c | e]] eqn:E2.
    + destruct (lib_execute lib c pragma w2) as [w3 r3] eqn:E3.
      rewrite (GuardianProps.open_connection_connected lib s w1 w2 w3 c r3 E1 E2 E3).
      intros H. inversion H; subst; clear H.
      right. right. exists c. split; [| split; reflexivity].
      destruct r3 as [e |]; [right; now exists e | now left].
    + rewrite (GuardianProps.open_connection_refused lib s w1 w2 e E1 E2).
      intros H. inversion H; subst; clear H.
      right. left. exists e. split; [reflexivity | split; [reflexivity |]].
      cbn. unfold append. now rewrite <- app_assoc.
  - rewrite (GuardianProps.open_connection_absent lib s w1 E1).
    intros H. inversion H; subst; clear H.
    left. split; [reflexivity | split; [reflexivity |]].
    cbn. unfold append. now rewrite <- app_assoc.
Qed.

(** The calls of one [open_connection]. *)
Lemma open_connection_log (s s' : State World) (r : Result Connection) :
  open_connection s = (r, s') ->
  exists tl,
    log s' = log s ++ tl
    /\ count is_read tl = 0
    /\ count is_close tl = 0
    /\ count is_connect tl <= 1
    /\ count is_execute tl <= 1
    /\ (r = Stop -> _conn_cache s' = _conn_cache s /\ count is_connect tl = 0)
    /\ (forall c, r = Return c -> _conn_cache s' = Some c).
Proof.
  intros H. destruct (open_connection_shape s s' r H)
    as [[Hr [Hc Hl]] | [[e [Hr [Hc Hl]]] | [c [Hr [Hc Hl]]]]].
  - eexists. split; [exact Hl |]. cbn.
    conjs; try lia.
    + intros _. split; [assumption | reflexivity].
    + intros c ->. discriminate Hr.
  - eexists. split; [exact Hl |]. cbn.
    conjs; try lia.
    + intros ->. discriminate Hr.
    + intros c ->. discriminate Hr.
  - eexists. split; [exact Hl |]. cbn.
    conjs; try lia.
    + intros ->. destruct Hr as [Hr | [e Hr]]; discriminate Hr.
    + intros c0 ->. destruct Hr as [Hr | [e Hr]]; [| discriminate Hr].
      inversion Hr; subst. exact Hc.
Qed.

(** The calls of one [get_valid_connection]: no query, at most one
    close (of the connection that was cached), at most one connect. *)
Lemma get_valid_connection_log (s s' : State World) (r : Result Connection) :
  get_valid_connection s = (r, s') ->
  exists tl,
    log s' = log s ++ tl
    /\ count is_read tl = 0
    /\ count is_close tl <= 1
    /\ count is_connect tl <= 1
    /\ count is_execute tl <= 2
    /\ (forall c, In (Close c) tl -> _conn_cache s = Some c)
    /\ (r = Stop -> _conn_cache s' = None /\ count is_connect tl = 0)
    /\ (forall c, r = Return c -> _conn_cache s' = Some c).
Proof.
  destruct (_conn_cache s) as [c0 |] eqn:Ec.
  - destruct (lib_execute lib c0 probe (world s)) as [w r0] eqn:Ep.
    rewrite (GuardianProps.get_valid_connection_probe lib s c0 w r0 Ec Ep).
    destruct r0 as [e |].
    + destruct (connection_lost e).
      * intros H.
        destruct (open_connection_log _ _ _ H)
          as [tl [Hl [Hrd [Hcl [Hcn [Hex [Hstop Hret]]]]]]].
        exists (Execute c0 probe :: Close c0 :: tl).
        split.
        { rewrite Hl. unfold Guardian.invalidated, record, append. cbn [log].
          rewrite <- !app_assoc. reflexivity. }
        change (Execute c0 probe :: Close c0 :: tl)
          with ([Execute c0 probe; Close c0] ++ tl).
        rewrite !count_app. cbn.
        conjs; try lia.
        -- intros c Hin.
           destruct Hin as [Hin | [Hin | Hin]]; try discriminate Hin.
           ++ now inversion Hin.
           ++ exfalso. unfold count in Hcl.
              assert (Hf : In (Close c) (filter is_close tl))
                by (apply filter_In; split; [assumption | reflexivity]).
              destruct (filter is_close tl); [contradiction | discriminate].
        -- intros Hr. destruct (Hstop Hr) as [Hc' Hn]. split; [exact Hc' | lia].
        -- exact Hret.
      * intros H. inversion H; subst; clear H.
        exists [Execute c0 probe]. cbn.
        conjs; try lia; try discriminate; try reflexivity.
        intros c [Hin | []]. discriminate Hin.
    + intros H. inversion H; subst; clear H.
      exists [Execute c0 probe]. cbn.
      conjs; try lia; try discriminate; try reflexivity.
      * intros c [Hin | []]. discriminate Hin.
      * intros c Hc. inversion Hc; subst. exact Ec.
  - rewrite (GuardianProps.get_valid_connection_no_cache lib s Ec).
    intros H.
    destruct (open_connection_log _ _ _ H)
      as [tl [Hl [Hrd [Hcl [Hcn [Hex [Hstop Hret]]]]]]].
    exists tl. conjs; try lia; try assumption.
    + intros c Hin. exfalso. unfold count in Hcl.
      assert (Hf : In (Close c) (filter is_close tl))
        by (apply filter_In; split; [assumption | reflexivity]).
      destruct (filter is_close tl); [contradiction | discriminate].
    + intros Hr. destruct (Hstop Hr) as [Hc' Hn]. split; [now rewrite Hc', Ec | exact Hn].
Qed.


Lemma no_close_in (tl : list Event) (c : Connection) :
  count is_close tl = 0 -> ~ In (Close c) tl.
Proof.
  unfold count. intros Hcl Hin.
  assert (Hf : In (Close c) (filter is_close tl))
    by (apply filter_In; split; [assumption | reflexivity]).
  destruct (filter is_close tl); [contradiction | discriminate].
Qed.

Lemma no_read_in (tl : list Event) (q : string) (c : Connection) :
  count is_read tl = 0 -> ~ In (ReadSql q c) tl.
Proof.
  unfold count. intros Hrd Hin.
  assert (Hf : In (ReadSql q c) (filter is_read tl))
    by (apply filter_In; split; [assumption | reflexivity]).
  destruct (filter is_read tl); [contradiction | discriminate].
Qed.

(** X1: validating the cached connection never runs a query; it closes
    at most one connection, and only the one that was cached when it
    started; it connects at most once and executes at most two
    statements (the probe and the busy-timeout statement); when it stops
    the session no connection was opened and none is cached; a
    connection it returns is the cached one. *)
Theorem validation_effort (s : State World) :
  let after := snd (get_valid_connection s) in
  count is_read (since s after) = 0
  /\ count is_close (since s after) <= 1
  /\ count is_connect (since s after) <= 1
  /\ count is_execute (since s after) <= 2
  /\ (forall c, In (Close c) (since s after) -> _conn_cache s = Some c)
  /\ (fst (get_valid_connection s) = Stop ->
      _conn_cache after = None /\ count is_connect (since s after) = 0)
  /\ (forall c, fst (get_valid_connection s) = Return c ->
      _conn_cache after = Some c).
Proof.
  intros after. subst after.
  destruct (get_valid_connection s) as [r s'] eqn:E.
  destruct (get_valid_connection_log s s' r E) as [tl [Hl H]].
  cbn [fst snd]. rewrite (GuardianProps.since_app s s' tl Hl). exact H.
Qed.

(** The calls of the recovery path of [fetch_query]: open a connection
    and run the query on it. *)
Lemma retry_log (query : string) (s0 s' : State World) (r : Result DataFrame) :
  bind open_connection (read_sql_query query) s0 = (r, s') ->
  exists tl,
    log s' = log s0 ++ tl
    /\ count is_read tl <= 1
    /\ count is_close tl = 0
    /\ count is_connect tl <= 1
    /\ (forall q c, In (ReadSql q c) tl -> q = query)
    /\ (forall df, r = Return df ->
        exists c pre, _conn_cache s' = Some c /\ log s' = pre ++ [ReadSql query c]).
Proof.
  unfold bind.
  destruct (open_connection s0) as [r0 opened] eqn:Eo.
  destruct (open_connection_log _ _ _ Eo)
    as [tl [Hl [Hrd [Hcl [Hcn [Hex [Hstop Hret]]]]]]].
  destruct r0 as [c | e |].
  - unfold Guardian.read_sql_query.
    destruct (lib_read_sql_query lib query c (world opened)) as [w [df | e]];
      intros H; inversion H; subst; clear H;
      exists (tl ++ [ReadSql query c]);
      (split; [cbn [record log]; unfold append; rewrite Hl, <- app_assoc; reflexivity |]);
      rewrite !count_app; cbn; conjs; try lia.
    + intros q c' Hin. apply in_app_or in Hin. destruct Hin as [Hin | [Hin | []]].
      * now apply no_read_in in Hin.
      * now inversion Hin.
    + intros df' _. exists c, (log opened). split; [| reflexivity].
      exact (Hret c eq_refl).
    + intros q c' Hin. apply in_app_or in Hin. destruct Hin as [Hin | [Hin | []]].
      * now apply no_read_in in Hin.
      * now inversion Hin.
    + discriminate.
  - intros H. inversion H; subst; clear H.
    exists tl. conjs; try lia; try assumption; try discriminate.
    intros q c Hin. now apply no_read_in in Hin.
  - intros H. inversion H; subst; clear H.
    exists tl. conjs; try lia; try assumption; try discriminate.
    intros q c Hin. now apply no_read_in in Hin.
Qed.

(** The calls of one [fetch_query]. *)
Lemma fetch_query_log (query : string) (conn : option Connection)
    (s s' : State World) (r : Result DataFrame) :
  fetch_query query conn s = (r, s') ->
  exists tl,
    log s' = log s ++ tl
    /\ count is_read tl <= 2
    /\ count is_close tl <= 2
    /\ count is_connect tl <= 2
    /\ (forall q c, In (ReadSql q c) tl -> q = query)
    /\ (forall df, r = Return df ->
        exists c pre, _conn_cache s' = Some c /\ log s' = pre ++ [ReadSql query c]).
Proof.
  destruct (get_valid_connection s) as [r1 s1] eqn:E1.
  destruct (get_valid_connection_log s s1 r1 E1)
    as [tl1 [Hl1 [Hrd1 [Hcl1 [Hcn1 [Hex1 [Hclose1 [Hstop1 Hret1]]]]]]]].
  destruct r1 as [c | e |].
  - destruct (lib_read_sql_query lib query c (world s1)) as [w r2] eqn:E2.
    rewrite (GuardianProps.fetch_query_first_attempt lib query conn s s1 c w r2 E1 E2).
    assert (Hfirst : forall q c', In (ReadSql q c') (tl1 ++ [ReadSql query c]) -> q = query).
    { intros q c' Hin. apply in_app_or in Hin. destruct Hin as [Hin | [Hin | []]].
      - now apply no_read_in in Hin.
      - now inversion Hin. }
    destruct r2 as [df | e].
    + intros H. inversion H; subst; clear H.
      exists (tl1 ++ [ReadSql query c]).
      split; [cbn [record log]; unfold append; rewrite Hl1, <- app_assoc; reflexivity |].
      rewrite !count_app; cbn; conjs; try lia; try assumption.
      intros df' _. exists c, (log s1). split; [| reflexivity].
      exact (Hret1 c eq_refl).
    + destruct (connection_lost e).
      * intros H.
        destruct (retry_log query _ _ _ H)
          as [tl2 [Hl2 [Hrd2 [Hcl2 [Hcn2 [Hq2 Hok2]]]]]].
        exists (tl1 ++ [ReadSql query c; Close c] ++ tl2).
        split.
        { rewrite Hl2. unfold Guardian.invalidated, record, append. cbn [log].
          rewrite Hl1, <- !app_assoc. reflexivity. }
        rewrite !count_app; cbn; conjs; try lia; try assumption.
        intros q c' Hin. apply in_app_or in Hin.
        destruct Hin as [Hin | [Hin | [Hin | Hin]]].
        -- now apply no_read_in in Hin.
        -- now inversion Hin.
        -- discriminate Hin.
        -- exact (Hq2 q c' Hin).
      * intros H. inversion H; subst; clear H.
        exists (tl1 ++ [ReadSql query c]).
        split; [cbn [record log]; unfold append; rewrite Hl1, <- app_assoc; reflexivity |].
        rewrite !count_app; cbn; conjs; try lia; try assumption.
        discriminate.
  - rewrite (proj1 (GuardianProps.fetch_query_not_validated lib query conn s s1 _ E1)
               e eq_refl).
    intros H. inversion H; subst; clear H.
    exists tl1. conjs; try lia; try assumption; try discriminate.
    intros q c Hin. now apply no_read_in in Hin.
  - rewrite (proj2 (GuardianProps.fetch_query_not_validated lib query conn s s1 _ E1)
               eq_refl).
    intros H. inversion H; subst; clear H.
    exists tl1. conjs; try lia; try assumption; try discriminate.
    intros q c Hin. now apply no_read_in in Hin.
Qed.

(** X2: whatever the outside does, one call of [fetch_query] executes
    the query at most twice, closes at most two connections and opens at
    most two, and the only statement it ever passes to
    [pd.read_sql_query] is the query it was given. *)
Theorem fetch_query_effort (query : string) (conn : option Connection)
    (s : State World) :
  let final := snd (fetch_query query conn s) in
  count is_read (since s final) <= 2
  /\ count is_close (since s final) <= 2
  /\ count is_connect (since s final) <= 2
  /\ (forall q c, In (ReadSql q c) (since s final) -> q = query).
Proof.
  intros final. subst final.
  destruct (fetch_query query conn s) as [r s'] eqn:E.
  destruct (fetch_query_log query conn s s' r E)
    as [tl [Hl [Hrd [Hcl [Hcn [Hq _]]]]]].
  cbn [snd]. rewrite (GuardianProps.since_app s s' tl Hl).
  conjs; assumption.
Qed.

(** X3: when [fetch_query] returns a table, the last call it made is the
    execution of the query on a connection, and that connection is the
    one left in the cache. *)
Theorem returned_table_comes_from_cached_connection (query : string)
    (conn : option Connection) (s : State World) (df : DataFrame) :
  fst (fetch_query query conn s) = Return df ->
  exists c pre,
    _conn_cache (snd (fetch_query query conn s)) = Some c
    /\ log (snd (fetch_query query conn s)) = pre ++ [ReadSql query c].
Proof.
  destruct (fetch_query query conn s) as [r s'] eqn:E.
  cbn [fst snd]. intros ->.
  destruct (fetch_query_log query conn s s' _ E) as [tl [_ [_ [_ [_ [_ Hok]]]]]].
  exact (Hok df eq_refl).
Qed.

(** X4: a second [get_valid_connection] right after a first one that
    returned a connection returns the same connection when its probe
    succeeds, and does nothing else than that probe. *)
Theorem validating_twice_returns_same_connection (s s1 : State World)
    (c : Connection) (w : World) :
  get_valid_connection s = (Return c, s1) ->
  lib_execute lib c probe (world s1) = (w, None) ->
  get_valid_connection s1 = (Return c, record s1 w (Execute c probe))
  /\ since s1 (snd (get_valid_connection s1)) = [Execute c probe].
Proof.
  intros E1 E2.
  pose proof (GuardianProps.get_valid_connection_cached lib s s1 c E1) as Hc.
  rewrite (GuardianProps.get_valid_connection_probe lib s1 c w None Hc E2).
  split; [reflexivity |].
  apply GuardianProps.since_app. reflexivity.
Qed.

(** X5: when the busy-timeout statement fails on a newly opened
    connection, the error is raised but the connection stays cached; the
    next call returns it after a successful probe and never runs the
    busy-timeout statement on it. *)
Theorem failed_pragma_leaves_connection_cached (s : State World)
    (w1 w2 w3 : World) (c : Connection) (e : exception) :
  _conn_cache s = None ->
  lib_exists lib db_path (world s) = (w1, true) ->
  lib_connect lib db_path w1 = (w2, inl c) ->
  lib_execute lib c pragma w2 = (w3, Some e) ->
  let failed := snd (get_valid_connection s) in
  fst (get_valid_connection s) = Raise e
  /\ _conn_cache failed = Some c
  /\ world failed = w3
  /\ forall w4,
      lib_execute lib c probe w3 = (w4, None) ->
      get_valid_connection failed = (Return c, record failed w4 (Execute c probe)).
Proof.
  intros Hc E1 E2 E3 failed. subst failed.
  rewrite (GuardianProps.get_valid_connection_no_cache lib s Hc).
  rewrite (GuardianProps.open_connection_connected lib s w1 w2 w3 c (Some e) E1 E2 E3).
  cbn [fst snd _conn_cache world].
  conjs; try reflexivity.
  intros w4 E4.
  exact (GuardianProps.get_valid_connection_probe lib
           (mkState w3 (Some c)
              (log s ++ [Exists db_path; Connect db_path; Execute c pragma]))
           c w4 None eq_refl E4).
Qed.

(** What [ensure_valid_connection] does with a connection, by the
    outcome of its probe. *)
Lemma ensure_valid_connection_probe (s : State World) (c : Connection)
    (w : World) (r : option exception) :
  lib_execute lib c probe (world s) = (w, r) ->
  ensure_valid_connection (Some c) s
  = match r with
    | None => (Return c, record s w (Execute c probe))
    | Some e =>
        if connection_lost e
        then get_valid_connection (record s w (Execute c probe))
        else (Raise e, record s w (Execute c probe))
    end.
Proof.
  intros E. unfold Guardian.ensure_valid_connection, try_except, bind, conn_execute.
  unfold probe in E. rewrite E.
  destruct r as [e |]; [| reflexivity].
  destruct (connection_lost e); reflexivity.
Qed.

(** X6: a connection returned by [ensure_valid_connection] is either the
    one it was given, in which case the call did nothing but probe it
    and did not look at the cache, or the cached one. *)
Theorem ensured_connection_is_given_or_cached (current : option Connection)
    (s : State World) (c : Connection) :
  fst (ensure_valid_connection current s) = Return c ->
  let after := snd (ensure_valid_connection current s) in
  (current = Some c
   /\ _conn_cache after = _conn_cache s
   /\ since s after = [Execute c probe])
  \/ _conn_cache after = Some c.
Proof.
  destruct current as [c0 |].
  - destruct (lib_execute lib c0 probe (world s)) as [w r] eqn:Ep.
    rewrite (ensure_valid_connection_probe s c0 w r Ep).
    destruct r as [e |].
    + destruct (connection_lost e); [| discriminate].
      destruct (get_valid_connection (record s w (Execute c0 probe)))
        as [r' s'] eqn:E.
      cbn [fst snd]. intros ->. right.
      exact (GuardianProps.get_valid_connection_cached lib _ _ c E).
    + cbn [fst snd]. intros H. inversion H; subst. left.
      conjs; try reflexivity.
      apply GuardianProps.since_app. reflexivity.
  - unfold Guardian.ensure_valid_connection.
    destruct (get_valid_connection s) as [r' s'] eqn:E.
    cbn [fst snd]. intros ->. right.
    exact (GuardianProps.get_valid_connection_cached lib _ _ c E).
Qed.

(** X7: [ensure_valid_connection] never closes the connection it was
    given unless that connection is the cached one; a dead connection
    held only by the caller is left as it is. *)
Theorem ensure_never_closes_foreign_connection (s : State World)
    (c : Connection) :
  _conn_cache s <> Some c ->
  ~ In (Close c) (since s (snd (ensure_valid_connection (Some c) s))).
Proof.
  intros Hne.
  destruct (lib_execute lib c probe (world s)) as [w r] eqn:Ep.
  rewrite (ensure_valid_connection_probe s c w r Ep).
  assert (Hprobe : since s (record s w (Execute c probe)) = [Execute c probe])
    by (apply GuardianProps.since_app; reflexivity).
  destruct r as [e |].
  - destruct (connection_lost e).
    + destruct (get_valid_connection (record s w (Execute c probe)))
        as [r' s'] eqn:E.
      destruct (get_valid_connection_log _ _ _ E)
        as [tl [Hl [_ [_ [_ [_ [Hclose _]]]]]]].
      cbn [snd].
      rewrite (GuardianProps.since_app s s' (Execute c probe :: tl)).
      * intros [Hin | Hin]; [discriminate Hin |].
        apply Hne. exact (Hclose c Hin).
      * rewrite Hl. cbn [record log]. unfold append.
        rewrite <- app_assoc. reflexivity.
    + cbn [snd]. rewrite Hprobe. intros [Hin | []]. discriminate Hin.
  - cbn [snd]. rewrite Hprobe. intros [Hin | []]. discriminate Hin.
Qed.

End Facts.

End GuardianExtras.

(** * The guardian extras on the simulated outside *)

Module GuardianExtraScenarios.

Import Guardian.

Local Open Scope list_scope.

(** Witness of X3: the retry after one locked attempt returns the
    table. *)
Lemma returned_table_example :
  exists c pre,
    _conn_cache (snd (fetch_query Sim.outside "Q" None (Sim.session true 1)))
    = Some c
    /\ log (snd (fetch_query Sim.outside "Q" None (Sim.session true 1)))
       = pre ++ [ReadSql "Q" c].
Proof.
  exact (GuardianExtras.returned_table_comes_from_cached_connection
           Sim.outside "Q" None (Sim.session true 1) "Q" eq_refl).
Defined.

(** Witness of X4: a live cached connection validated twice. *)
Lemma validating_twice_example :
  get_valid_connection Sim.outside (Sim.validated true 0)
  = (Return 0,
     record (Sim.validated true 0) (Sim.mkWorld true [0] 1 0) (Execute 0 probe))
  /\ since (Sim.validated true 0)
       (snd (get_valid_connection Sim.outside (Sim.validated true 0)))
     = [Execute 0 probe].
Proof.
  exact (GuardianExtras.validating_twice_returns_same_connection
           Sim.outside (Sim.session true 0) (Sim.validated true 0) 0
           (Sim.mkWorld true [0] 1 0) eq_refl eq_refl).
Defined.

(** Witness of X5: the first connection of a session, on an outside
    that rejects the busy-timeout statement. *)
Lemma failed_pragma_example :
  fst (get_valid_connection Faults.outside (Sim.fresh_session true))
  = Raise OperationalError
  /\ _conn_cache (snd (get_valid_connection Faults.outside (Sim.fresh_session true)))
     = Some 0.
Proof.
  destruct (GuardianExtras.failed_pragma_leaves_connection_cached
              Faults.outside (Sim.fresh_session true)
              (Sim.mkWorld true [] 0 0) (Sim.mkWorld true [0] 1 0)
              (Sim.mkWorld true [0] 1 0) 0 OperationalError
              eq_refl eq_refl eq_refl eq_refl) as [Hr [Hc _]].
  split; [exact Hr | exact Hc].
Defined.

(** Witness of X6: the caller holds the live connection [0] while the
    cache holds [1]; the caller gets [0] back. *)
Lemma ensured_connection_example :
  (Some 0 = Some 0
   /\ _conn_cache (snd (ensure_valid_connection Sim.outside (Some 0)
                          Faults.two_connections))
      = _conn_cache Faults.two_connections
   /\ since Faults.two_connections
        (snd (ensure_valid_connection Sim.outside (Some 0) Faults.two_connections))
      = [Execute 0 probe])
  \/ _conn_cache (snd (ensure_valid_connection Sim.outside (Some 0)
                         Faults.two_connections))
     = Some 0.
Proof.
  exact (GuardianExtras.ensured_connection_is_given_or_cached
           Sim.outside (Some 0) Faults.two_connections 0 eq_refl).
Defined.

(** Witness of X7: the caller holds the dead connection [0] while the
    cache holds [1]. *)
Lemma foreign_connection_example :
  ~ In (Close 0)
       (since Faults.dead_variable
          (snd (ensure_valid_connection Sim.outside (Some 0) Faults.dead_variable))).
Proof.
  apply (GuardianExtras.ensure_never_closes_foreign_connection
           Sim.outside Faults.dead_variable 0).
  discriminate.
Defined.

End GuardianExtraScenarios.

(** * Further properties of the query builder *)

Module BuilderExtras.

Import QueryBuilder BuilderSpec SqlText Overview QuoteCount.

Section WithFormatter.

Variable float_str : float -> string.

Local Abbreviation build_where_clause := (build_where_clause float_str).
Local Abbreviation render := (render float_str).

Lemma render_starts (c : field_condition) :
  exists ch rest, render c = String ch rest.
Proof.
  destruct c as [column values | d | d | v | v]; cbn.
  - unfold in_condition. destruct column as [| ch column]; cbn;
      eexists; eexists; reflexivity.
  - eexists; eexists; reflexivity.
  - eexists; eexists; reflexivity.
  - eexists; eexists; reflexivity.
  - eexists; eexists; reflexivity.
Qed.

Lemma join_starts (sep : string) (ch : ascii) (rest : string) (cs : list string) :
  exists rest', join sep (String ch rest :: cs) = String ch rest'.
Proof.
  unfold join. destruct cs as [| c cs]; cbn; eexists; reflexivity.
Qed.

(** The builder's result, by the conditions of the enabled fields. *)
Lemma build_where_clause_cases (fs : FilterState) :
  match spec_conditions fs with
  | [] => build_where_clause fs = None
  | c :: cs =>
      exists ch rest, build_where_clause fs = Some (String ch rest)
  end.
Proof.
  unfold QueryBuilder.build_where_clause. cbv zeta.
  rewrite BuilderProps.conditions_of_spec, BuilderProps.truthy_map.
  destruct (spec_conditions fs) as [| c cs]; [reflexivity |].
  cbn [truthy map].
  destruct (render_starts c) as [ch [rest ->]].
  destruct (join_starts " AND " ch rest (map render cs)) as [rest' ->].
  now exists ch, rest'.
Qed.

(** X8: the builder never returns the empty text, so the test
    [if where_clause:] of its callers holds exactly when the result is
    not [None]. *)
Theorem predicate_text_is_never_empty (fs : FilterState) :
  build_where_clause fs <> Some ""
  /\ (truthy_text (build_where_clause fs) = true
      <-> build_where_clause fs <> None).
Proof.
  pose proof (build_where_clause_cases fs) as H.
  destruct (spec_conditions fs) as [| c cs].
  - rewrite H. split; [discriminate |]. cbn. split; [discriminate | congruence].
  - destruct H as [ch [rest ->]]. split; [discriminate |].
    cbn. split; [discriminate | reflexivity].
Qed.

(** X9: the two statements of the overview page carry a [WHERE] clause
    exactly when the builder returned a predicate; the clause is then
    that predicate, which is not empty, and otherwise the statements are
    the unfiltered ones. *)
Theorem overview_statements_follow_predicate (fs : FilterState) :
  match build_where_clause fs with
  | Some text =>
      text <> ""
      /\ base_query float_str fs
         = "SELECT * " ++ join_clause ++ " WHERE " ++ text
      /\ query_stats float_str fs
         = stats_columns ++ join_clause
           ++ nl ++ "        WHERE " ++ text ++ nl ++ "        "
  | None =>
      base_query float_str fs = "SELECT * " ++ join_clause
      /\ query_stats float_str fs
         = stats_columns ++ "FROM pagamento p" ++ nl ++ "        "
  end.
Proof.
  pose proof (build_where_clause_cases fs) as H.
  unfold base_query, query_stats. cbv zeta.
  destruct (spec_conditions fs) as [| c cs].
  - rewrite H. split; reflexivity.
  - destruct H as [ch [rest ->]].
    split; [discriminate |]. split; reflexivity.
Qed.

Lemma app_nil_iff {A : Type} (a b : list A) :
  (a ++ b)%list = [] <-> a = [] /\ b = [].
Proof.
  destruct a; cbn; split; try congruence; intuition discriminate.
Qed.

Lemma membership_nil (column : string) (values : list string) :
  membership column values = [] <-> values = [].
Proof. destruct values; cbn; split; congruence. Qed.

(** X10: the builder returns no predicate exactly when nothing is
    enabled: the three selections are empty, the date toggle is off or
    no date bound is stored, and the value toggle is off or neither
    value bound is greater than zero. *)
Theorem no_predicate_iff_nothing_enabled (fs : FilterState) :
  build_where_clause fs = None
  <-> filtro_categoria fs = []
      /\ filtro_modalidade fs = []
      /\ filtro_estado fs = []
      /\ (use_date_filter fs = false
          \/ (filtro_data_inicio fs = None /\ filtro_data_fim fs = None))
      /\ (use_value_filter fs = false
          \/ (gt_zero (filtro_valor_min fs) = false
              /\ gt_zero (filtro_valor_max fs) = false)).
Proof.
  pose proof (build_where_clause_cases fs) as H.
  assert (Hnil : build_where_clause fs = None <-> spec_conditions fs = []).
  { destruct (spec_conditions fs) as [| c cs].
    - split; [reflexivity | intros _; exact H].
    - destruct H as [ch [rest ->]]. split; discriminate. }
  rewrite Hnil. unfold spec_conditions.
  rewrite !app_nil_iff, !membership_nil.
  unfold date_range, value_range, positive.
  destruct (use_date_filter fs), (filtro_data_inicio fs), (filtro_data_fim fs);
    destruct (use_value_filter fs),
      (gt_zero (filtro_valor_min fs)), (gt_zero (filtro_valor_max fs));
    cbn; intuition (congruence || discriminate).
Qed.

End WithFormatter.

(** *** Quotes in the text of a condition *)

Lemma quotes_app (a b : string) : quotes (a ++ b) = quotes a + quotes b.
Proof. induction a as [| c a IH]; cbn; [reflexivity | rewrite IH; lia]. Qed.

Lemma quotes_in_app (a b : list string) :
  quotes_in (a ++ b) = quotes_in a + quotes_in b.
Proof. induction a as [| v a IH]; cbn; [reflexivity | rewrite IH; lia]. Qed.

Lemma consumed_append (items : list string) (value : string) :
  consumed Closed (append items value)
  = consumed Closed items + 2 + 2 * quotes value.
Proof.
  unfold consumed, append. rewrite length_app, quotes_in_app. cbn. lia.
Qed.

(** The reader accounts for every quote of the text: two for each item
    it returns and two for each quote character inside an item. *)
Lemma read_list_quotes (text : string) :
  forall (m : mode) (items res : list string),
    read_list m items text = Some res ->
    consumed m items + quotes text = consumed Closed res.
Proof.
  induction text as [| ch text IH]; intros m items res H.
  - destruct m; cbn in H; try discriminate H.
    inversion H; subst. cbn. lia.
  - cbn [read_list] in H. cbn [quotes].
    destruct m as [| value | value | |];
      destruct (Ascii.eqb ch quote) eqn:Eq;
      try (destruct (Ascii.eqb ch space) eqn:Es);
      try (destruct (Ascii.eqb ch comma) eqn:Ec);
      try (destruct (Ascii.eqb ch rparen) eqn:Er);
      try discriminate H;
      try (apply Ascii.eqb_eq in Eq; subst ch; discriminate);
      apply IH in H;
      try pose proof (consumed_append items value) as Ha;
      unfold consumed, snoc in *;
      rewrite ?quotes_app in H; cbn in *; rewrite ?Eq in H; lia.
Qed.

Lemma quotes_join (v : string) (values : list string) :
  quotes (join "', '" (v :: values))
  = quotes_in (v :: values) + 2 * List.length values.
Proof.
  revert v. induction values as [| v2 values IH]; intros v.
  - cbn. lia.
  - change (join "', '" (v :: v2 :: values))
      with (v ++ "', '" ++ join "', '" (v2 :: values))%string.
    rewrite !quotes_app, IH. cbn. lia.
Qed.

Lemma quotes_zero (v : string) : quotes v = 0 <-> quote_free v = true.
Proof.
  induction v as [| ch v IH]; cbn; [tauto |].
  destruct (Ascii.eqb ch quote); cbn; [split; [lia | discriminate] | exact IH].
Qed.

Lemma quotes_in_zero (values : list string) :
  quotes_in values = 0 <-> all_quote_free values.
Proof.
  unfold all_quote_free. induction values as [| v values IH]; cbn.
  - split; [constructor | reflexivity].
  - split.
    + intros H. constructor; [apply quotes_zero; lia | apply IH; lia].
    + intros H. inversion H as [| v' values' Hv Hvs]; subst.
      apply quotes_zero in Hv. apply IH in Hvs. lia.
Qed.

(** X11: the text of a membership condition is read back as the selected
    values exactly when none of them contains a single quote. *)
Theorem read_back_iff_quote_free (column : string) (values : list string) :
  values <> [] ->
  read_in_condition column (in_condition column values) = Some values
  <-> all_quote_free values.
Proof.
  intros Hne. split.
  - unfold read_in_condition, in_condition.
    change (column ++ " IN ('" ++ join "', '" values ++ "')")%string
      with (column ++ (" IN (" ++ String quote (join "', '" values ++ "')")))%string.
    rewrite MembershipProps.strip_prefix_app.
    change (read_list BeforeLiteral [] (String quote (join "', '" values ++ "')"))
            = Some values -> all_quote_free values).
    intros H. apply read_list_quotes in H.
    destruct values as [| v values]; [congruence |].
    cbn [quotes] in H. rewrite quotes_app, quotes_join in H.
    apply quotes_in_zero.
    unfold consumed in H. cbn in H. cbn. lia.
  - apply MembershipProps.read_in_condition_quote_free. exact Hne.
Qed.

(** X12: for selections without quotes, only the members count: two
    selections with the same members, in any order and with any
    repetition, give conditions that match the same rows. *)
Theorem selection_order_is_irrelevant (column : string)
    (values values' : list string) (field : string) :
  values <> [] ->
  all_quote_free values ->
  all_quote_free values' ->
  same_members values values' ->
  in_matches column (in_condition column values) field
  = in_matches column (in_condition column values') field.
Proof.
  intros Hne Hq Hq' Hsame.
  assert (Hne' : values' <> []).
  { destruct values as [| v values]; [congruence |].
    intros ->. exact (proj1 (Hsame v) (or_introl eq_refl)). }
  pose proof (MembershipProps.in_matches_quote_free column values Hne Hq field) as H.
  pose proof (MembershipProps.in_matches_quote_free column values' Hne' Hq' field) as H'.
  destruct (in_matches column (in_condition column values) field),
    (in_matches column (in_condition column values') field); try reflexivity.
  - symmetry. apply H', Hsame, H. reflexivity.
  - apply H, Hsame, H'. reflexivity.
Qed.

Lemma quotes_digits (d : Decimal.uint) :
  quotes (NilEmpty.string_of_uint d) = 0.
Proof. induction d; cbn; assumption || reflexivity. Qed.

Lemma quotes_decimal (n : nat) : quotes (decimal n) = 0.
Proof.
  unfold decimal, NilZero.string_of_uint.
  destruct (Nat.to_uint n) eqn:E; try reflexivity;
    rewrite <- E; apply quotes_digits.
Qed.

Lemma quotes_zeros (n : nat) : quotes (zeros n) = 0.
Proof. induction n as [| n IH]; cbn; [reflexivity | exact IH]. Qed.

Lemma quotes_zfill (width n : nat) : quotes (zfill width n) = 0.
Proof.
  unfold zfill. cbv zeta. now rewrite quotes_app, quotes_zeros, quotes_decimal.
Qed.

(** X13: whatever date is stored, its text contains no single quote, so
    the only quotes of a date condition are the two delimiters of its
    literal. *)
Theorem date_condition_has_two_quotes (d : date) :
  quote_free (date_str d) = true
  /\ quotes (date_ge d) = 2
  /\ quotes (date_le d) = 2.
Proof.
  assert (Hd : quotes (date_str d) = 0).
  { unfold date_str. rewrite !quotes_app, !quotes_zfill. reflexivity. }
  split; [now apply quotes_zero |].
  unfold date_ge, date_le. rewrite !quotes_app, Hd. split; reflexivity.
Qed.

(** Witness of X11. *)
Lemma read_back_example :
  read_in_condition "mu.uf" (in_condition "mu.uf" ["SP"; "RJ"]) = Some ["SP"; "RJ"]
  <-> all_quote_free ["SP"; "RJ"].
Proof.
  apply read_back_iff_quote_free. discriminate.
Defined.

(** Witness of X12. *)
Lemma selection_order_example :
  in_matches "mu.uf" (in_condition "mu.uf" ["SP"; "RJ"]) "RJ"
  = in_matches "mu.uf" (in_condition "mu.uf" ["RJ"; "SP"; "SP"]) "RJ".
Proof.
  apply selection_order_is_irrelevant.
  - discriminate.
  - repeat constructor.
  - repeat constructor.
  - intros v. cbn. tauto.
Defined.

End BuilderExtras.
